(** * A shallow embedding of the postgres convenience layer

    The repository wraps the go-pg ORM driver: [wrapper.go] (package
    [database]) holds the [dbWrapper] client, [repository/dao/dao.go] the
    generic [DAO], and package [migrate] the [Migrator].  The ORM, the SQL
    driver, the migration engine and the Go runtime are outside the
    repository; they appear here as an environment [Env] whose answers may
    depend on the whole history of calls made so far. *)

From Stdlib Require Import ZArith String Ascii List Lia.
From stdpp Require Import base option list gmap strings pretty.

Local Open Scope string_scope.

(** ** Go values *)

Definition TxId := nat.
Definition ClientRef := nat.
Definition Formatter := nat.

(** Context keys: [&TxKey] and [&LoggerKey] are the addresses of two
    distinct package-level variables; any other key is [OtherKey]. *)
Inductive CtxKey := TxKeyAddr | LoggerKeyAddr | OtherKey (n : nat).

Global Instance CtxKey_eq_dec : EqDecision CtxKey.
Proof. solve_decision. Defined.

(** The application error kinds of package [errors]. *)
Inductive Kind := NotFound | BadRequest | Internal.

Global Instance Kind_eq_dec : EqDecision Kind.
Proof. solve_decision. Defined.

(** Values held by an [interface{}] argument, a struct field or a context
    value.  [VTx None] is a nil [*pg.Tx] and differs from the nil
    interface [VNil]. *)
Inductive Any :=
| VNil
| VString (s : string)
| VInt (z : Z)
| VTime (t : Z)
| VTx (t : option TxId)
| VAppender (id : nat)              (* an orm.QueryAppender *)
| VOpaque (id : nat).

Global Instance Any_eq_dec : EqDecision Any.
Proof. solve_decision. Defined.

(** Values of Go's [error] interface; [option error] is a possibly nil
    error. *)
Inductive error :=
| ErrNoRows                         (* pg.ErrNoRows *)
| ErrMultiRows                      (* pg.ErrMultiRows *)
| DriverErr (code : nat)            (* any other error of the driver *)
| CtxCanceled                       (* context.Canceled *)
| CtxDeadlineExceeded               (* context.DeadlineExceeded *)
| ErrText (msg : string)            (* errors.New *)
| ErrFmt (format : string) (args : list Any) (* fmt.Errorf *)
| AppErr (k : Kind) (cause : error) (* an application error of package errors *).

Global Instance error_eq_dec : EqDecision error.
Proof. solve_decision. Defined.

(** A [context.Context]: the chain of values attached by
    [context.WithValue], innermost first, and the cancellation source it
    shares with its parents. *)
Record Context := mkContext {
  ctx_values : list (CtxKey * Any);
  ctx_cancel : nat
}.

Fixpoint assoc_Value (l : list (CtxKey * Any)) (k : CtxKey) : Any :=
  match l with
  | [] => VNil
  | (k', v) :: l' => if decide (k' = k) then v else assoc_Value l' k
  end.

(** [ctx.Value(key)]; the nil interface when no value is attached. *)
Definition ctx_Value (c : Context) (k : CtxKey) : Any :=
  assoc_Value (ctx_values c) k.

Definition context_WithValue (c : Context) (k : CtxKey) (v : Any) : Context :=
  {| ctx_values := (k, v) :: ctx_values c; ctx_cancel := ctx_cancel c |}.

Definition context_Background : Context :=
  {| ctx_values := []; ctx_cancel := 0 |}.

(** A struct value: its type name and its fields by Go name. *)
Record Struct := mkStruct {
  s_type : string;
  s_fields : list (string * Any)
}.

Fixpoint assoc_field (l : list (string * Any)) (name : string) : option Any :=
  match l with
  | [] => None
  | (n, v) :: l' => if decide (n = name) then Some v else assoc_field l' name
  end.

(** [reflect.Value.FieldByName]: [None] is the zero Value of a missing
    field. *)
Definition FieldByName (s : Struct) (name : string) : option Any :=
  assoc_field (s_fields s) name.

(** What an [interface{}] model argument can hold.  Pointers to structs
    and slices are taken to be non-nil.  [ROther] holds a value of
    another kind: the nil interface, a string, an integer, a time, a
    pointer to a transaction ([VTx], nil or not), or a value the model
    does not look into ([VAppender], [VOpaque]), which may be a pointer
    to something that is not a table struct, such as a [*int]. *)
Inductive Iface :=
| RPtr (s : Struct)                 (* *T *)
| RStruct (s : Struct)              (* T *)
| RSliceOfPtr (l : list Struct)     (* []*T *)
| RSliceOfStruct (l : list Struct)  (* []T *)
| RPtrToSlice (l : list Struct)     (* *[]T, *[]*T *)
| ROther (v : Any).

(** ** The ORM's query descriptor *)

Inductive Target := OnConn | OnTx (t : TxId).

Inductive QueryDB := ViaWrapper (c : ClientRef) | Direct (t : Target).

(** The argument of [Query.Apply]: the option lists of package [opt],
    which the ORM interprets. *)
Inductive ApplyFn := OptApply (opts : list nat) | OptApplyFilter (opts : list nat).

Record Query := mkQuery {
  q_db : QueryDB;
  q_ctx : option Context;
  q_model : list Iface;
  q_apply : list ApplyFn;
  q_columns : list string;
  q_wherePK : bool;
  q_set : list (string * list Any);
  q_onConflict : option string;
  q_returning : option string
}.

Inductive Action :=
| DoFirst | DoSelect | DoSelectAndCount | DoCount | DoUpdate | DoInsert | DoDelete
| DoForceDelete.

Inductive Request :=
| ReqBegin | ReqCommit | ReqRollback | ReqClose
| ReqOrm (q : Query) (a : Action)
| ReqExec (query : Any) (params : list Any)
| ReqQuery (model : Iface) (query : Any) (params : list Any)
| ReqCopyFrom (r : nat) (query : Any) (params : list Any)
| ReqCopyTo (iw : nat) (query : Any) (params : list Any)
| ReqExecContext (c : Context) (query : Any) (params : list Any)
| ReqExecOneContext (c : Context) (query : Any) (params : list Any)
| ReqQueryContext (c : Context) (model : Iface) (query : Any) (params : list Any)
| ReqQueryOneContext (c : Context) (model : Iface) (query : Any) (params : list Any).

(** [orm.Result]. *)
Record Result := mkResult { RowsAffected : Z; RowsReturned : Z }.

(** Everything a driver call can hand back; each call site reads the
    components its Go signature has. *)
Record Reply := mkReply {
  rep_res : option Result;
  rep_err : option error;
  rep_count : Z;
  rep_tx : option TxId
}.

Inductive Event :=
| EvCall (t : Target) (r : Request)
| EvLogRollbackFailed (e : error).

(** The commits and rollbacks among the events, with their transaction;
    [true] is a commit. *)
Definition tx_end (e : Event) : option (TxId * bool) :=
  match e with
  | EvCall (OnTx t) ReqCommit => Some (t, true)
  | EvCall (OnTx t) ReqRollback => Some (t, false)
  | _ => None
  end.

(** ** The shared state *)

Record dbWrapper := mkWrapper {
  w_ctx : option Context;
  w_tx : option TxId;
  w_wrappedProcessor : option nat
}.

(** [heap] maps every [*dbWrapper] to its current contents, [done] every
    cancellation source to the error [ctx.Err()] reports, [clock] is what
    [time.Now()] reads and [events] the calls made so far, oldest first. *)
Record World := mkWorld {
  heap : ClientRef -> dbWrapper;
  done : nat -> option error;
  clock : Z;
  events : list Event
}.

Inductive outcome (A : Type) :=
| Ret (a : A) (w : World)
| Panic (w : World).
Arguments Ret {A} a w.
Arguments Panic {A} w.

Definition M (A : Type) : Type := World -> outcome A.

Global Instance M_ret : MRet M := fun A a w => Ret a w.
Global Instance M_bind : MBind M := fun A B f m w =>
  match m w with
  | Ret a w' => f a w'
  | Panic w' => Panic w'
  end.

Definition panic {A} : M A := fun w => Panic w.

(** What a run returned, if it did, and the world it left. *)
Definition returned {A} (o : outcome A) : option A :=
  match o with
  | Ret a _ => Some a
  | Panic _ => None
  end.

Definition world_of {A} (o : outcome A) : World :=
  match o with
  | Ret _ w => w
  | Panic w => w
  end.

Definition set_heap (c : ClientRef) (d : dbWrapper) (w : World) : World :=
  {| heap := fun c' => if decide (c' = c) then d else heap w c';
     done := done w; clock := clock w; events := events w |}.

Definition add_event (e : Event) (w : World) : World :=
  {| heap := heap w; done := done w; clock := clock w;
     events := (events w ++ [e])%list |}.

Definition deref (c : ClientRef) : M dbWrapper := fun w => Ret (heap w c) w.
Definition store (c : ClientRef) (d : dbWrapper) : M unit :=
  fun w => Ret tt (set_heap c d w).
Definition log_event (e : Event) : M unit := fun w => Ret tt (add_event e w).

(** [ctx.Err()] and [time.Now()]. *)
Definition ctx_Err (c : Context) : M (option error) :=
  fun w => Ret (done w (ctx_cancel c)) w.
Definition time_Now : M Z := fun w => Ret (clock w) w.

(** ** The environment *)

Record Table := mkTable { FieldsMap : gmap string string }.

Record Env := mkEnv {
  (* the go-pg driver: its answer to a call, given the history *)
  driver : list Event -> Target -> Request -> Reply;
  (* conn.Context(), tx.Context() *)
  drv_Context : Target -> Context;
  (* conn.Formatter(), tx.Formatter() and QueryFormatter.FormatQuery *)
  drv_Formatter : Target -> Formatter;
  fmt_FormatQuery : Formatter -> string -> string -> list Any -> string;
  (* QueryAppender.AppendQuery(fmter, nil) *)
  AppendQuery : nat -> Formatter -> string * option error;
  (* the function stored in dbWrapper.wrappedProcessor *)
  run_processor : nat -> Context -> M (option Result * option error) ->
                  string -> Iface -> M (option Result * option error);
  (* fmt.Sprint of a field value *)
  Sprint : Any -> string;
  (* orm.GetTable: column name to Go field name *)
  GetTable : string -> option Table;
  (* the order in which range visits the keys of a map *)
  range_keys : gmap string Struct -> list string;
  (* how errors.Convert classifies an error *)
  classify : Context -> error -> Kind;
  (* DeletedSetter.SetDeleted *)
  SetDeleted : Struct -> Z -> Struct;
  (* for a value the model does not look into:
     reflect.ValueOf(v).Elem().Type().Kind() != reflect.Slice,
     None when Elem or Type panics *)
  elem_not_slice : Any -> option bool
}.

(** ** Package database: the client wrapper (wrapper.go) *)

Module database.
Section Wrapper.
Variable E : Env.

(** One call into the driver: the answer depends on the history, and the
    call is appended to it. *)
Definition call (t : Target) (r : Request) : M Reply :=
  fun w => Ret (driver E (events w) t r) (add_event (EvCall t r) w).

Definition set_tx (c : ClientRef) (t : option TxId) : M unit :=
  d ← deref c;
  store c {| w_ctx := w_ctx d; w_tx := t;
             w_wrappedProcessor := w_wrappedProcessor d |}.

(** An [Option] changes the wrapper it is given; [NewDbClient] starts
    from a wrapper with no context, no transaction and no wrapped
    processor. *)
Definition NewDbClient (options : list (dbWrapper -> dbWrapper)) : dbWrapper :=
  fold_left (fun dbc o => o dbc) options
    {| w_ctx := None; w_tx := None; w_wrappedProcessor := None |}.

(** The option [WithLogger] adds a query hook to the pooled connection
    and returns the wrapper it was given. *)
Definition WithLogger (logger : nat) (duration : Z) : dbWrapper -> dbWrapper :=
  fun w => w.

Definition getTxFromContext (ctx : Context) : option TxId :=
  match ctx_Value ctx TxKeyAddr with
  | VTx tx => tx
  | _ => None
  end.

Definition Tx (c : ClientRef) : M (option TxId) :=
  d ← deref c; mret (w_tx d).

Definition StartTx (c : ClientRef) : M (option TxId * option error) :=
  rep ← call OnConn ReqBegin;
  match rep_err rep with
  | Some err => mret (None, Some err)
  | None => _ ← set_tx c (rep_tx rep); mret (rep_tx rep, None)
  end.

(** [w.tx.Commit()] on a nil [w.tx] dereferences the nil pointer inside
    go-pg: the call panics. *)
Definition Commit (c : ClientRef) : M (option error) :=
  d ← deref c;
  match w_tx d with
  | None => panic
  | Some t =>
      rep ← call (OnTx t) ReqCommit;
      _ ← set_tx c None;
      mret (rep_err rep)
  end.

Definition Rollback (c : ClientRef) : M (option error) :=
  d ← deref c;
  match w_tx d with
  | None => panic
  | Some t =>
      rep ← call (OnTx t) ReqRollback;
      _ ← set_tx c None;
      mret (rep_err rep)
  end.

Definition Context_ (c : ClientRef) : M Context :=
  d ← deref c;
  match w_tx d with
  | Some t => mret (drv_Context E (OnTx t))
  | None => mret (drv_Context E OnConn)
  end.

Definition WithContext (c : ClientRef) (ctx : Context) : M ClientRef :=
  d ← deref c;
  _ ← store c {| w_ctx := Some ctx; w_tx := getTxFromContext ctx;
                 w_wrappedProcessor := w_wrappedProcessor d |};
  mret c.

Definition Close (c : ClientRef) : M (option error) :=
  rep ← call OnConn ReqClose; mret (rep_err rep).

(** [orm.NewQuery(db, model...)] with the context [ctx]. *)
Definition NewQuery (db : QueryDB) (ctx : option Context) (model : list Iface)
  : Query :=
  {| q_db := db; q_ctx := ctx; q_model := model; q_apply := [];
     q_columns := []; q_wherePK := false; q_set := []; q_onConflict := None;
     q_returning := None |}.

Definition WherePK (q : Query) : Query :=
  {| q_db := q_db q; q_ctx := q_ctx q; q_model := q_model q;
     q_apply := q_apply q; q_columns := q_columns q; q_wherePK := true;
     q_set := q_set q; q_onConflict := q_onConflict q;
     q_returning := q_returning q |}.

(** [tx.Model(model...)] and [conn.Model(model...)]. *)
Definition target_Model (t : Target) (model : list Iface) : Query :=
  NewQuery (Direct t) (Some (drv_Context E t)) model.

Definition Model (c : ClientRef) (model : list Iface) : M Query :=
  d ← deref c; mret (NewQuery (ViaWrapper c) (w_ctx d) model).

(** Running a built query.  A query made by [Model] has the wrapper as
    its database: the ORM runs it through the wrapper's [*Context]
    methods, which pick the transaction when one is set. *)
Definition run_query (q : Query) (a : Action) : M Reply :=
  match q_db q with
  | Direct t => call t (ReqOrm q a)
  | ViaWrapper c =>
      d ← deref c;
      match w_tx d with
      | Some t => call (OnTx t) (ReqOrm q a)
      | None => call OnConn (ReqOrm q a)
      end
  end.

Definition Select (c : ClientRef) (model : Iface) : M (option error) :=
  d ← deref c;
  match w_tx d with
  | Some t =>
      rep ← run_query (WherePK (target_Model (OnTx t) [model])) DoSelect;
      mret (rep_err rep)
  | None =>
      rep ← run_query (WherePK (target_Model OnConn [model])) DoSelect;
      mret (rep_err rep)
  end.

Definition Insert (c : ClientRef) (model : list Iface) : M (option error) :=
  d ← deref c;
  match w_tx d with
  | Some t =>
      rep ← run_query (target_Model (OnTx t) model) DoInsert;
      mret (rep_err rep)
  | None =>
      rep ← run_query (target_Model OnConn model) DoInsert;
      mret (rep_err rep)
  end.

Definition Update (c : ClientRef) (model : Iface) : M (option error) :=
  d ← deref c;
  match w_tx d with
  | Some t =>
      rep ← run_query (WherePK (target_Model (OnTx t) [model])) DoUpdate;
      mret (rep_err rep)
  | None =>
      rep ← run_query (WherePK (target_Model OnConn [model])) DoUpdate;
      mret (rep_err rep)
  end.

Definition Delete (c : ClientRef) (model : Iface) : M (option error) :=
  d ← deref c;
  match w_tx d with
  | Some t =>
      rep ← run_query (WherePK (target_Model (OnTx t) [model])) DoDelete;
      mret (rep_err rep)
  | None =>
      rep ← run_query (WherePK (target_Model OnConn [model])) DoDelete;
      mret (rep_err rep)
  end.

Definition ForceDelete (c : ClientRef) (values : Iface) : M (option error) :=
  d ← deref c;
  match w_tx d with
  | Some t =>
      rep ← run_query (WherePK (target_Model (OnTx t) [values])) DoForceDelete;
      mret (rep_err rep)
  | None =>
      rep ← run_query (WherePK (target_Model OnConn [values])) DoForceDelete;
      mret (rep_err rep)
  end.

Definition Formatter_ (c : ClientRef) : M Formatter :=
  d ← deref c;
  match w_tx d with
  | Some t => mret (drv_Formatter E (OnTx t))
  | None => mret (drv_Formatter E OnConn)
  end.

Definition queryString (c : ClientRef) (query : Any) : M string :=
  match query with
  | VAppender typed =>
      f ← Formatter_ c;
      match AppendQuery E typed f with
      | (b, None) => mret b
      | (_, Some _) => mret ""
      end
  | VString typed => mret typed
  | _ => mret ""
  end.

(** The closure [processor] of [Exec]; it reads [w.tx] when it runs. *)
Definition Exec_processor (c : ClientRef) (query : Any) (params : list Any)
  : M (option Result * option error) :=
  d ← deref c;
  match w_tx d with
  | Some t =>
      rep ← call (OnTx t) (ReqExec query params);
      mret (rep_res rep, rep_err rep)
  | None =>
      rep ← call OnConn (ReqExec query params);
      mret (rep_res rep, rep_err rep)
  end.

Definition Exec (c : ClientRef) (query : Any) (params : list Any)
  : M (option Result * option error) :=
  let processor := Exec_processor c query params in
  d ← deref c;
  match w_wrappedProcessor d with
  | None => processor
  | Some wrapped =>
      s ← queryString c query;
      run_processor E wrapped (drv_Context E OnConn) processor s (ROther VNil)
  end.

Definition assertOneRow (affected : Z) : option error :=
  if (affected =? 0)%Z then Some ErrNoRows
  else if (affected >? 1)%Z then Some ErrMultiRows
  else None.

(** [res.RowsAffected()] on a nil result panics. *)
Definition one_row (r : option Result * option error)
  : M (option Result * option error) :=
  match r with
  | (_, Some err) => mret (None, Some err)
  | (None, None) => panic
  | (Some res, None) =>
      match assertOneRow (RowsAffected res) with
      | Some err => mret (None, Some err)
      | None => mret (Some res, None)
      end
  end.

Definition ExecOne (c : ClientRef) (query : Any) (params : list Any)
  : M (option Result * option error) :=
  r ← Exec c query params; one_row r.

(** The closure [processor] of [Query]. *)
Definition Query_processor (c : ClientRef) (model : Iface) (query : Any)
  (params : list Any) : M (option Result * option error) :=
  d ← deref c;
  match w_tx d with
  | Some t =>
      rep ← call (OnTx t) (ReqQuery model query params);
      mret (rep_res rep, rep_err rep)
  | None =>
      rep ← call OnConn (ReqQuery model query params);
      mret (rep_res rep, rep_err rep)
  end.

Definition Query_ (c : ClientRef) (model : Iface) (query : Any)
  (params : list Any) : M (option Result * option error) :=
  let processor := Query_processor c model query params in
  d ← deref c;
  match w_wrappedProcessor d with
  | None => processor
  | Some wrapped =>
      s ← queryString c query;
      run_processor E wrapped (drv_Context E OnConn) processor s model
  end.

Definition QueryOne (c : ClientRef) (model : Iface) (query : Any)
  (params : list Any) : M (option Result * option error) :=
  r ← Query_ c model query params; one_row r.

(** The two one-row calls and the call each is built on. *)
Inductive OneRowCall := ViaExec | ViaQuery (model : Iface).

Definition underlying (k : OneRowCall) (c : ClientRef) (query : Any)
  (params : list Any) : M (option Result * option error) :=
  match k with
  | ViaExec => Exec c query params
  | ViaQuery model => Query_ c model query params
  end.

Definition one_row_call (k : OneRowCall) (c : ClientRef) (query : Any)
  (params : list Any) : M (option Result * option error) :=
  match k with
  | ViaExec => ExecOne c query params
  | ViaQuery model => QueryOne c model query params
  end.

Definition CopyFrom (c : ClientRef) (r : nat) (query : Any) (params : list Any)
  : M (option Result * option error) :=
  d ← deref c;
  match w_tx d with
  | Some t =>
      rep ← call (OnTx t) (ReqCopyFrom r query params);
      mret (rep_res rep, rep_err rep)
  | None =>
      rep ← call OnConn (ReqCopyFrom r query params);
      mret (rep_res rep, rep_err rep)
  end.

Definition CopyTo (c : ClientRef) (iw : nat) (query : Any) (params : list Any)
  : M (option Result * option error) :=
  d ← deref c;
  match w_tx d with
  | Some t =>
      rep ← call (OnTx t) (ReqCopyTo iw query params);
      mret (rep_res rep, rep_err rep)
  | None =>
      rep ← call OnConn (ReqCopyTo iw query params);
      mret (rep_res rep, rep_err rep)
  end.

Definition FormatQuery (c : ClientRef) (b : string) (query : string)
  (params : list Any) : M string :=
  d ← deref c;
  match w_tx d with
  | Some t => mret (fmt_FormatQuery E (drv_Formatter E (OnTx t)) b query params)
  | None => mret (fmt_FormatQuery E (drv_Formatter E OnConn) b query params)
  end.

Definition ModelContext (c : ClientRef) (ctx : Context) (model : list Iface)
  : M Query :=
  d ← deref c;
  match w_tx d with
  | Some t => mret (NewQuery (Direct (OnTx t)) (Some ctx) model)
  | None => mret (NewQuery (Direct OnConn) (Some ctx) model)
  end.

Definition ExecContext (c : ClientRef) (ctx : Context) (query : Any)
  (params : list Any) : M (option Result * option error) :=
  d ← deref c;
  match w_tx d with
  | Some t =>
      rep ← call (OnTx t) (ReqExecContext ctx query params);
      mret (rep_res rep, rep_err rep)
  | None =>
      rep ← call OnConn (ReqExecContext ctx query params);
      mret (rep_res rep, rep_err rep)
  end.

Definition ExecOneContext (c : ClientRef) (ctx : Context) (query : Any)
  (params : list Any) : M (option Result * option error) :=
  d ← deref c;
  match w_tx d with
  | Some t =>
      rep ← call (OnTx t) (ReqExecOneContext ctx query params);
      mret (rep_res rep, rep_err rep)
  | None =>
      rep ← call OnConn (ReqExecOneContext ctx query params);
      mret (rep_res rep, rep_err rep)
  end.

Definition QueryContext (c : ClientRef) (ctx : Context) (model : Iface)
  (query : Any) (params : list Any) : M (option Result * option error) :=
  d ← deref c;
  match w_tx d with
  | Some t =>
      rep ← call (OnTx t) (ReqQueryContext ctx model query params);
      mret (rep_res rep, rep_err rep)
  | None =>
      rep ← call OnConn (ReqQueryContext ctx model query params);
      mret (rep_res rep, rep_err rep)
  end.

Definition QueryOneContext (c : ClientRef) (ctx : Context) (model : Iface)
  (query : Any) (params : list Any) : M (option Result * option error) :=
  d ← deref c;
  match w_tx d with
  | Some t =>
      rep ← call (OnTx t) (ReqQueryOneContext ctx model query params);
      mret (rep_res rep, rep_err rep)
  | None =>
      rep ← call OnConn (ReqQueryOneContext ctx model query params);
      mret (rep_res rep, rep_err rep)
  end.

(** *** The pass-through reading of the client

    The specification's words: a call goes to the active transaction when
    one is set, otherwise to the pooled connection, with the arguments it
    was given. *)

Definition target (d : dbWrapper) : Target :=
  match w_tx d with
  | Some t => OnTx t
  | None => OnConn
  end.

Definition forward (c : ClientRef) (req : Target -> Request) : M Reply :=
  d ← deref c; call (target d) (req (target d)).

Definition forward_err (c : ClientRef) (req : Target -> Request)
  : M (option error) :=
  rep ← forward c req; mret (rep_err rep).

Definition forward_res (c : ClientRef) (req : Target -> Request)
  : M (option Result * option error) :=
  rep ← forward c req; mret (rep_res rep, rep_err rep).

End Wrapper.
End database.

(** ** Package errors

    Modelled from the spec: package [errors] ([Convert],
    [NewInternalError], [NewBadRequestError]) is not among the sources.
    The translation helper turns an error into one of the application
    error kinds not-found, bad-request or internal; which one is left to
    the environment ([classify]). *)

Module pkgerr.

Definition NewInternalError (err : error) : error := AppErr Internal err.
Definition NewBadRequestError (err : error) : error := AppErr BadRequest err.
Definition Convert (E : Env) (ctx : Context) (err : error) : error :=
  AppErr (classify E ctx err) err.

Definition is_app_error (err : error) : bool :=
  match err with
  | AppErr _ _ => true
  | _ => false
  end.

End pkgerr.

(** ** Package dao (repository/dao/dao.go) *)

Module dao.
Import database.

Record DAO := mkDAO {
  db : ClientRef;
  updatedField : string;
  deletedField : string
}.

Definition New (db : ClientRef) : DAO :=
  {| db := db; updatedField := "updated"; deletedField := "deleted" |}.

(** The receiver is a pointer: the setters return the updated [DAO]. *)
Definition SetUpdatedField (r : DAO) (fieldName : string) : DAO :=
  if decide (fieldName = "") then r
  else {| db := db r; updatedField := fieldName;
          deletedField := deletedField r |}.

Definition SetDeletedField (r : DAO) (fieldName : string) : DAO :=
  if decide (fieldName = "") then r
  else {| db := db r; updatedField := updatedField r;
          deletedField := fieldName |}.

Definition DB (r : DAO) : ClientRef := db r.

Definition newTxContext (ctx : Context) (tx : option TxId) : Context :=
  context_WithValue ctx TxKeyAddr (VTx tx).

(** The query builders of the ORM used by the DAO. *)
Definition Apply (q : Query) (f : ApplyFn) : Query :=
  {| q_db := q_db q; q_ctx := q_ctx q; q_model := q_model q;
     q_apply := (q_apply q ++ [f])%list; q_columns := q_columns q;
     q_wherePK := q_wherePK q; q_set := q_set q;
     q_onConflict := q_onConflict q; q_returning := q_returning q |}.

Definition Column (q : Query) (columns : list string) : Query :=
  {| q_db := q_db q; q_ctx := q_ctx q; q_model := q_model q;
     q_apply := q_apply q; q_columns := (q_columns q ++ columns)%list;
     q_wherePK := q_wherePK q; q_set := q_set q;
     q_onConflict := q_onConflict q; q_returning := q_returning q |}.

Definition Set_ (q : Query) (set : string) (params : list Any) : Query :=
  {| q_db := q_db q; q_ctx := q_ctx q; q_model := q_model q;
     q_apply := q_apply q; q_columns := q_columns q;
     q_wherePK := q_wherePK q; q_set := (q_set q ++ [(set, params)])%list;
     q_onConflict := q_onConflict q; q_returning := q_returning q |}.

(** Several [Set] calls in a row. *)
Definition add_sets (q : Query) (sets : list (string * list Any)) : Query :=
  {| q_db := q_db q; q_ctx := q_ctx q; q_model := q_model q;
     q_apply := q_apply q; q_columns := q_columns q;
     q_wherePK := q_wherePK q; q_set := (q_set q ++ sets)%list;
     q_onConflict := q_onConflict q; q_returning := q_returning q |}.

Definition OnConflict (q : Query) (s : string) : Query :=
  {| q_db := q_db q; q_ctx := q_ctx q; q_model := q_model q;
     q_apply := q_apply q; q_columns := q_columns q;
     q_wherePK := q_wherePK q; q_set := q_set q;
     q_onConflict := Some s; q_returning := q_returning q |}.

Definition Returning (q : Query) (s : string) : Query :=
  {| q_db := q_db q; q_ctx := q_ctx q; q_model := q_model q;
     q_apply := q_apply q; q_columns := q_columns q;
     q_wherePK := q_wherePK q; q_set := q_set q;
     q_onConflict := q_onConflict q; q_returning := Some s |}.

Section Dao.
Variable E : Env.

Definition Ping (r : DAO) (ctx : Context) : M (option error) :=
  c ← WithContext (db r) ctx;
  res ← Exec E c (VString "SELECT 1") [];
  mret res.2.

Definition WithTX (r : DAO) (ctx : Context)
  (fn : Context -> M (option error)) : M (option error) :=
  active ← Tx (db r);
  match active with
  | Some _ => fn ctx
  | None =>
      c ← WithContext (db r) ctx;
      started ← StartTx E c;
      match started with
      | (_, Some err) => mret (Some (pkgerr.Convert E ctx err))
      | (tx, None) =>
          err ← fn (newTxContext ctx tx);
          cerr ← ctx_Err ctx;
          if bool_decide (err ≠ None) || bool_decide (cerr ≠ None) then
            rollbackErr ← Rollback E (db r);
            _ ← match rollbackErr with
                | Some e => log_event (EvLogRollbackFailed e)
                | None => mret tt
                end;
            cerr' ← ctx_Err ctx;
            match cerr' with
            | Some e => mret (Some e)
            | None => mret err
            end
          else
            cmt ← Commit E (db r);
            match cmt with
            | Some e => mret (Some (pkgerr.Convert E ctx e))
            | None => mret None
            end
      end
  end.

(** The common tail [if err != nil { return Convert(ctx, err) }; return nil]. *)
Definition converted (ctx : Context) (err : option error) : option error :=
  match err with
  | Some e => Some (pkgerr.Convert E ctx e)
  | None => None
  end.

Definition FindOne (r : DAO) (ctx : Context) (receiver : Iface)
  (opts : list nat) : M (option error) :=
  c ← WithContext (db r) ctx;
  q ← Model c [receiver];
  rep ← run_query E (Apply q (OptApply opts)) DoFirst;
  mret (converted ctx (rep_err rep)).

Definition FindList (r : DAO) (ctx : Context) (receiver : Iface)
  (opts : list nat) : M (option error) :=
  c ← WithContext (db r) ctx;
  q ← Model c [receiver];
  rep ← run_query E (Apply q (OptApply opts)) DoSelect;
  mret (converted ctx (rep_err rep)).

Definition FindListWithTotal (r : DAO) (ctx : Context) (receiver : Iface)
  (opts : list nat) : M (Z * option error) :=
  c ← WithContext (db r) ctx;
  q ← Model c [receiver];
  rep ← run_query E (Apply q (OptApply opts)) DoSelectAndCount;
  match rep_err rep with
  | Some err => mret (0%Z, Some (pkgerr.Convert E ctx err))
  | None => mret (rep_count rep, None)
  end.

Definition GetTotal (r : DAO) (ctx : Context) (receiver : Iface)
  (opts : list nat) : M (Z * option error) :=
  c ← WithContext (db r) ctx;
  q ← Model c [receiver];
  rep ← run_query E (Apply q (OptApply opts)) DoCount;
  match rep_err rep with
  | Some err => mret (0%Z, Some (pkgerr.Convert E ctx err))
  | None => mret (rep_count rep, None)
  end.

(** [reflect.ValueOf(rec).Elem().Type().Kind() != reflect.Slice].
    [Elem] panics on a value that is not a pointer; for a nil pointer it
    gives the zero Value, on which [Type] panics.  A non-nil [*pg.Tx] is
    a pointer to a struct.  What a value the model does not look into
    gives is left to the environment. *)
Definition elem_is_not_slice (rec : Iface) : M bool :=
  match rec with
  | RPtr _ => mret true
  | RPtrToSlice _ => mret false
  | ROther (VTx (Some _)) => mret true
  | ROther ((VAppender _ | VOpaque _) as v) =>
      match elem_not_slice E v with
      | Some notSlice => mret notSlice
      | None => panic
      end
  | RStruct _ | RSliceOfPtr _ | RSliceOfStruct _
  | ROther (VNil | VString _ | VInt _ | VTime _ | VTx None) => panic
  end.

Definition Update (r : DAO) (ctx : Context) (rec : Iface)
  (columns : list string) : M (option error) :=
  let columns := (columns ++ [updatedField r])%list in
  c ← WithContext (db r) ctx;
  q ← Model c [rec];
  let q := Column q columns in
  pk ← elem_is_not_slice rec;
  let q := if (pk : bool) then WherePK q else q in
  rep ← run_query E q DoUpdate;
  mret (converted ctx (rep_err rep)).

(** The loop of [UpdateWhere] over [setFieldValuePairs], two elements at
    a time; reading past the end panics. *)
Fixpoint set_pairs (q : Query) (pairs : list Any) : M (Query + error) :=
  match pairs with
  | [] => mret (inl q)
  | VString column :: rest =>
      match rest with
      | value :: rest' => set_pairs (Set_ q (column ++ " = ?") [value]) rest'
      | [] => panic
      end
  | other :: _ =>
      mret (inr (pkgerr.NewInternalError
        (ErrFmt "UpdateWhere: field must be string, got %T (%v)"
                [other; other])))
  end.

Definition UpdateWhere (r : DAO) (ctx : Context) (rec : Iface)
  (opts : list nat) (setFieldValuePairs : list Any) : M (option error) :=
  if decide (Z.land (Z.of_nat (length setFieldValuePairs)) 1 ≠ 0%Z) then
    mret (Some (pkgerr.NewInternalError
      (ErrFmt "UpdateWhere: setFieldValuePairs must be even, got %d"
              [VInt (Z.of_nat (length setFieldValuePairs))])))
  else
    now ← time_Now;
    let setFieldValuePairs :=
      (setFieldValuePairs ++ [VString (updatedField r); VTime now])%list in
    c ← WithContext (db r) ctx;
    q ← Model c [rec];
    let q := Apply q (OptApply opts) in
    built ← set_pairs q setFieldValuePairs;
    match built with
    | inr err => mret (Some err)
    | inl q =>
        rep ← run_query E q DoUpdate;
        mret (converted ctx (rep_err rep))
    end.

(** *** The specification's reading of [setFieldValuePairs] *)

Definition is_string (v : Any) : bool :=
  match v with
  | VString _ => true
  | _ => false
  end.

(** The elements at the indices 0, 2, 4, ... *)
Fixpoint at_even_index (l : list Any) : list Any :=
  match l with
  | [] => []
  | x :: rest =>
      x :: match rest with
           | [] => []
           | _ :: rest' => at_even_index rest'
           end
  end.

(** Odd length, or an element at an even index that is not a string. *)
Definition malformed_pairs (l : list Any) : bool :=
  Nat.odd (length l) || negb (forallb is_string (at_even_index l)).

(** One SET clause per field/value pair. *)
Fixpoint set_clauses (l : list Any) : list (string * list Any) :=
  match l with
  | VString column :: value :: rest =>
      (column ++ " = ?", [value]) :: set_clauses rest
  | _ => []
  end.

Definition UpdateWithReturning (r : DAO) (ctx : Context) (rec : Iface)
  (columns : list string) : M (option error) :=
  let columns := (columns ++ [updatedField r])%list in
  c ← WithContext (db r) ctx;
  q ← Model c [rec];
  rep ← run_query E (Returning (WherePK (Column q columns)) "*") DoUpdate;
  mret (converted ctx (rep_err rep)).

Definition Insert (r : DAO) (ctx : Context) (rec : list Iface)
  : M (option error) :=
  c ← WithContext (db r) ctx;
  err ← database.Insert E c rec;
  mret (converted ctx err).

Definition SoftDelete (r : DAO) (ctx : Context) (rec : Struct)
  : M (option error) :=
  now ← time_Now;
  let rec := SetDeleted E rec now in
  err ← Update r ctx (RPtr rec) [deletedField r];
  mret (converted ctx err).

Definition HardDelete (r : DAO) (ctx : Context) (rec : Iface)
  : M (option error) :=
  c ← WithContext (db r) ctx;
  err ← database.Delete E c rec;
  mret (converted ctx err).

Definition HardDeleteWhere (r : DAO) (ctx : Context) (rec : Iface)
  (opts : list nat) : M (option error) :=
  c ← WithContext (db r) ctx;
  q ← Model c [rec];
  rep ← run_query E (Apply q (OptApplyFilter opts)) DoDelete;
  mret (converted ctx (rep_err rep)).

(** [reflect.Type] as far as [orm.GetTable] looks at it; [None] is the nil
    type [reflect.TypeOf(nil)]. *)
Inductive GoType := TStruct (name : string) | TNotStruct.

(** [s.Index(0)] panics on an empty slice. *)
Definition getType (models : Iface) : M (option GoType) :=
  match models with
  | RSliceOfPtr l | RSliceOfStruct l =>
      match l with
      | [] => panic
      | m :: _ => mret (Some (TStruct (s_type m)))
      end
  | RPtr m => mret (Some (TStruct (s_type m)))
  | RPtrToSlice _ => mret (Some TNotStruct)
  | RStruct m => mret (Some (TStruct (s_type m)))
  | ROther _ => mret None
  end.

(** [orm.GetTable] panics on the nil type and on a type that is not a
    struct. *)
Definition orm_GetTable (typ : option GoType) : M (option Table) :=
  match typ with
  | Some (TStruct name) => mret (GetTable E name)
  | _ => panic
  end.

(** [t.FieldsMap[key].GoName] for every key; a column the table does not
    have gives a nil field, whose [GoName] cannot be read. *)
Fixpoint go_names (t : Table) (keys : list string) : M (list string) :=
  match keys with
  | [] => mret []
  | key :: keys' =>
      match FieldsMap t !! key with
      | None => panic
      | Some goName => rest ← go_names t keys'; mret (goName :: rest)
      end
  end.

(** [fmt.Sprint] of a [reflect.Value]. *)
Definition Sprint_Value (v : option Any) : string :=
  match v with
  | Some x => Sprint E x
  | None => "<invalid reflect.Value>"
  end.

(** The closure [Upsert] passes to [GetUniqueModels]. *)
Definition upsert_key (goNames : list string) (model : Struct) : string :=
  String.concat "_"
    (map (fun key => Sprint_Value (FieldByName model key)) goNames).

(** The loop [rows[f(model)] = model] over the slice. *)
Definition fill_rows (f : Struct -> string) (s : list Struct)
  : gmap string Struct :=
  fold_left (fun rows model => <[f model := model]> rows) s ∅.

(** The loop [for i := range rows { unique = append(unique, rows[i]) }];
    [range] yields only keys that are present, so [rows[i]] is always
    found. *)
Definition range_rows (rows : gmap string Struct) : list Struct :=
  omap (fun i => rows !! i) (range_keys E rows).

(** [reflect.TypeOf(models).Kind()] panics on the nil interface.  The
    result is a [[]interface{}] of pointers to the elements. *)
Definition GetUniqueModels (models : Iface) (f : Struct -> string)
  : M (list Struct) :=
  match models with
  | ROther VNil => panic
  | _ =>
      let rows : gmap string Struct :=
        match models with
        | RSliceOfPtr s | RSliceOfStruct s => fill_rows f s
        | _ => ∅
        end in
      mret (range_rows rows)
  end.

(** Modelled from the spec: the composite key of a record, its key
    fields (the Go fields named by the keys) rendered one by one and
    joined by "_"; a field the record does not have renders as the zero
    Value does. *)
Definition rendered_key (goNames : list string) (model : Struct) : string :=
  String.concat "_"
    (map (fun name => match FieldByName model name with
                      | Some v => Sprint E v
                      | None => "<invalid reflect.Value>"
                      end) goNames).

(** The Go field names the key columns stand for, read off the table of
    the first element's type; [None] when a key is not a column. *)
Definition key_names (first : Struct) (keys : list string)
  : option (list string) :=
  match GetTable E (s_type first) with
  | Some t => mapM (fun key => FieldsMap t !! key) keys
  | None => Some []
  end.

(** [m] is the last element of [s] with its key: no element after it has
    the same key. *)
Definition last_with_key (f : Struct -> string) (s : list Struct)
  (m : Struct) : Prop :=
  ∃ i, s !! i = Some m ∧ ∀ j m', i < j → s !! j = Some m' → f m' ≠ f m.

(** The dispatch of [Upsert] on [reflect.TypeOf(recs).Kind()].  A pointer
    to a slice never gets here: [orm_GetTable] has panicked on its type. *)
Definition upsert_models (recs : Iface) (goNames : list string)
  : M (list Struct + error) :=
  match recs with
  | RSliceOfPtr _ | RSliceOfStruct _ =>
      models ← GetUniqueModels recs (upsert_key goNames);
      mret (inl models)
  | RPtr m => mret (inl [m])
  | RPtrToSlice _ => panic
  | RStruct _ | ROther _ =>
      mret (inr (pkgerr.NewBadRequestError
        (ErrText "recs must be slice or pointer to struct")))
  end.

Definition Upsert (r : DAO) (ctx : Context) (recs : Iface)
  (keys : list string) (columns : list string) : M (option error) :=
  if decide (length keys = 0) then
    mret (Some (pkgerr.NewBadRequestError (ErrText "keys cannot be empty")))
  else
    typ ← getType recs;
    t ← orm_GetTable typ;
    goNames ← match t with
              | Some t => go_names t keys
              | None => mret []
              end;
    selected ← upsert_models recs goNames;
    match selected with
    | inr err => mret (Some err)
    | inl models =>
        if decide (length models = 0) then
          mret (Some (pkgerr.NewBadRequestError
            (ErrText "models cannot be empty")))
        else
          c ← WithContext (db r) ctx;
          q ← Model c [RPtrToSlice models];
          let q :=
            OnConflict q ("(" ++ String.concat "," keys ++ ") DO UPDATE") in
          let q := fold_left
            (fun q column => Set_ q (column ++ " = EXCLUDED." ++ column) [])
            columns q in
          rep ← run_query E q DoInsert;
          mret (rep_err rep)
    end.

(** *** Transactions begun through the client and not yet ended *)










End Dao.
End dao.

(** ** Package migrate *)

Module migrate.

Definition driverName : string := "postgres".

(** [strings.TrimPrefix]. *)
Definition TrimPrefix (s prefix : string) : string :=
  if String.prefix prefix s
  then String.substring (String.length prefix)
         (String.length s - String.length prefix) s
  else s.

(** The specification's words: one leading [c] removed. *)
Definition strip_leading (c : ascii) (s : string) : string :=
  match s with
  | String c' rest => if Ascii.eqb c' c then rest else s
  | EmptyString => s
  end.

Record Migrator := mkMigrator {
  path : string;
  dsn : string;
  cleanScheme : list string;
  logger : nat
}.

(** [zap.NewNop()]. *)
Definition nop_logger : nat := 0.

(** An [OptionFn] mutates the migrator it is given. *)
Definition OptionFn := Migrator -> Migrator.

Definition WithClean (scheme : list string) : OptionFn :=
  fun m => {| path := path m; dsn := dsn m; cleanScheme := scheme;
              logger := logger m |}.

Definition WithLogger (logger : nat) : OptionFn :=
  fun m => {| path := path m; dsn := dsn m; cleanScheme := cleanScheme m;
              logger := logger |}.

Definition NewMigrator (path dsn : string) (options : list OptionFn)
  : Migrator :=
  let m := {| path := "file://" ++ TrimPrefix (TrimPrefix path ".") "/";
              dsn := dsn; cleanScheme := []; logger := nop_logger |} in
  fold_left (fun m opt => opt m) options m.

Inductive MigErr := ErrNoChange | MigOther (code : nat).

Global Instance MigErr_eq_dec : EqDecision MigErr.
Proof. solve_decision. Defined.

Inductive Level := LInfo | LWarn | LError.

(** The calls [Run] makes into database/sql, the postgres driver of the
    migration library, the migration engine and the logger. *)
Inductive MigCall :=
| SqlOpen (driver dataSourceName : string)
| DbQuery (query : string)
| DbClose
| WithInstance
| NewWithDatabaseInstance (sourceURL databaseName : string)
| Version
| Up
| Log (logger : nat) (l : Level) (msg : string).

Record MigReply := mkMigReply {
  m_err : option MigErr;
  m_version : Z;
  m_dirty : bool
}.

Definition T (A : Type) : Type := list MigCall -> A * list MigCall.

Global Instance T_ret : MRet T := fun A a tr => (a, tr).
Global Instance T_bind : MBind T := fun A B f m tr =>
  let (a, tr') := m tr in f a tr'.

Section Run.
Variable engine : list MigCall -> MigCall -> MigReply.

Definition ask (c : MigCall) : T MigReply :=
  fun tr => (engine tr c, (tr ++ [c])%list).

Definition cleanDatabase (m : Migrator) (schema : string) : T (option MigErr) :=
  _ ← ask (Log (logger m) LInfo "clean schema");
  r ← ask (DbQuery ("DROP SCHEMA " ++ schema ++ " CASCADE"));
  match m_err r with
  | Some err => mret (Some err)
  | None =>
      r ← ask (DbQuery ("CREATE SCHEMA " ++ schema));
      match m_err r with
      | Some err => mret (Some err)
      | None => mret None
      end
  end.

Fixpoint clean_all (m : Migrator) (schemes : list string) : T (option MigErr) :=
  match schemes with
  | [] => mret None
  | scheme :: rest =>
      r ← cleanDatabase m scheme;
      match r with
      | Some err => mret (Some err)
      | None => clean_all m rest
      end
  end.

Definition warn_if_dirty (m : Migrator) (dirty : bool) : T unit :=
  if dirty then _ ← ask (Log (logger m) LWarn "previous migration failed"); mret tt
  else mret tt.

(** The body of [Run] after [sql.Open] succeeded; [db.Close()] is deferred
    around it. *)
Definition run_opened (m : Migrator) : T (option MigErr) :=
  cleaned ← clean_all m (cleanScheme m);
  match cleaned with
  | Some err => mret (Some err)
  | None =>
  r ← ask WithInstance;
  match m_err r with
  | Some err => mret (Some err)
  | None =>
  r ← ask (NewWithDatabaseInstance (path m) driverName);
  match m_err r with
  | Some err => mret (Some err)
  | None =>
  before ← ask Version;
  let beforeVersion := m_version before in
  if bool_decide (m_err before ≠ None) && bool_decide (beforeVersion ≠ 0%Z)
  then mret (m_err before)
  else
  _ ← ask (Log (logger m) LInfo "migration started");
  _ ← warn_if_dirty m (m_dirty before);
  up ← ask Up;
  if bool_decide (m_err up ≠ None) && bool_decide (m_err up ≠ Some ErrNoChange)
  then mret (m_err up)
  else
  _ ← (if bool_decide (m_err up = Some ErrNoChange)
       then _ ← ask (Log (logger m) LInfo "no new database changes"); mret tt
       else mret tt);
  after ← ask Version;
  if bool_decide (m_err after ≠ None) && bool_decide (beforeVersion ≠ 0%Z)
  then mret (m_err after)
  else
  _ ← ask (Log (logger m) LInfo "migration done");
  _ ← warn_if_dirty m (m_dirty after);
  mret None
  end end end.

Definition Run (m : Migrator) : T (option MigErr) :=
  r ← ask (SqlOpen driverName (dsn m));
  match m_err r with
  | Some err =>
      _ ← ask (Log (logger m) LError "failed to connect database");
      mret (Some err)
  | None =>
      res ← run_opened m;
      _ ← ask DbClose;
      mret res
  end.

End Run.
End migrate.

(** ** A concrete environment

    A driver that answers every call with one affected row, numbers the
    transactions it begins by the length of the history, and a table
    [Agent] with the columns [id] and [name]. *)

Module Example.
Import database dao.

Definition ok_reply (hist : list Event) : Reply :=
  {| rep_res := Some {| RowsAffected := 1; RowsReturned := 1 |};
     rep_err := None; rep_count := 0; rep_tx := Some (length hist) |}.

Definition agent_table : Table :=
  {| FieldsMap := {[ "id" := "ID"; "name" := "Name" ]} |}.

Definition sprint (v : Any) : string :=
  match v with
  | VString s => s
  | VInt z => pretty z
  | _ => "?"
  end.

Definition env_with (drv : list Event -> Target -> Request -> Reply)
  (proc : nat -> Context -> M (option Result * option error) -> string ->
          Iface -> M (option Result * option error)) : Env :=
  {| driver := drv;
     drv_Context := fun _ => context_Background;
     drv_Formatter := fun _ => 0;
     fmt_FormatQuery := fun _ b query _ => b ++ query;
     AppendQuery := fun _ _ => ("", None);
     run_processor := proc;
     Sprint := sprint;
     GetTable := fun _ => Some agent_table;
     range_keys := fun rows => (map_to_list rows).*1;
     classify := fun _ err =>
       match err with ErrNoRows => NotFound | _ => Internal end;
     SetDeleted := fun s t =>
       {| s_type := s_type s; s_fields := ("Deleted", VTime t) :: s_fields s |};
     elem_not_slice := fun _ => None |}.

(** The wrapped processor that only runs the closure it is given. *)
Definition plain_processor (_ : nat) (_ : Context)
  (p : M (option Result * option error)) (_ : string) (_ : Iface)
  : M (option Result * option error) := p.

Definition env : Env := env_with (fun hist _ _ => ok_reply hist) plain_processor.

(** A driver whose results carry no row count, as for a statement that
    affects no rows by nature: go-pg reports -1. *)
Definition env_no_count : Env :=
  env_with (fun hist _ _ =>
    {| rep_res := Some {| RowsAffected := -1; RowsReturned := 0 |};
       rep_err := None; rep_count := 0; rep_tx := None |}) plain_processor.

(** A driver on which every insert fails. *)
Definition env_insert_fails : Env :=
  env_with (fun hist _ req =>
    match req with
    | ReqOrm _ DoInsert =>
        {| rep_res := None; rep_err := Some (DriverErr 55); rep_count := 0;
           rep_tx := None |}
    | _ => ok_reply hist
    end) plain_processor.

Definition client0 : dbWrapper := NewDbClient [].

Definition world0 : World :=
  {| heap := fun _ => client0; done := fun _ => None; clock := 1000;
     events := [] |}.

Definition world_in_tx : World :=
  {| heap := fun _ =>
       {| w_ctx := None; w_tx := Some 3; w_wrappedProcessor := None |};
     done := fun _ => None; clock := 1000; events := [] |}.

(** A function passed to [WithTX] that binds the shared client to a
    context carrying another transaction, and one that uses the DAO with
    a context carrying none. *)
Definition fn_rebinds (_ : Context) : M (option error) :=
  _ ← WithContext 0 (newTxContext context_Background (Some 99));
  mret None.

Definition fn_outer_context (_ : Context) : M (option error) :=
  dao.Insert env (New 0) context_Background [RPtr (mkStruct "Agent" [])].

Definition fn_inner_context (ctx : Context) : M (option error) :=
  dao.Insert env (New 0) ctx [RPtr (mkStruct "Agent" [])].

Definition agent (id : Z) (name : string) : Struct :=
  {| s_type := "Agent"; s_fields := [("ID", VInt id); ("Name", VString name)] |}.

End Example.

(** ** Package database: the query logger

    [dbLogger] is a go-pg query hook: [BeforeQuery] stamps the start time
    into the event's stash, [AfterQuery] measures the time since and logs
    the query.  A [time.Time] is its reading in nanoseconds, a
    [time.Duration] a 64-bit count of nanoseconds; the two readings of
    [time.Now()] are arguments. *)

Module dblog.

Definition queryStartTime : Any := VString "StartTime".

(** [map[interface{}]interface{}]; a nil map is [None]. *)
Definition Stash := Any -> option Any.

Definition stash_make : Stash := fun _ => None.

Definition stash_set (s : Stash) (k v : Any) : Stash :=
  fun k' => if decide (k' = k) then Some v else s k'.

Record QueryEvent := mkQueryEvent {
  ev_Stash : option Stash;
  ev_FormattedQuery : string * option error;
  ev_Err : option error
}.

Record dbLogger := mkLogger {
  lg_logger : nat;
  lg_duration : Z
}.

Definition newDBLogger (logger : nat) (duration : Z) : dbLogger :=
  {| lg_logger := logger; lg_duration := duration |}.

Inductive ZapLevel := InfoLevel | WarnLevel.

Definition minDuration : Z := - 2 ^ 63.
Definition maxDuration : Z := 2 ^ 63 - 1.

(** [t.Sub(u)]: the difference, held at the ends of the range. *)
Definition time_Sub (t u : Z) : Z :=
  let d := (t - u)%Z in
  if (d <? minDuration)%Z then minDuration
  else if (maxDuration <? d)%Z then maxDuration
  else d.

(** The event is a pointer: [BeforeQuery] returns the event it leaves. *)
Definition BeforeQuery (d : dbLogger) (now : Z) (event : QueryEvent)
  : QueryEvent :=
  let stash := match ev_Stash event with
               | None => stash_make
               | Some s => s
               end in
  {| ev_Stash := Some (stash_set stash queryStartTime (VTime now));
     ev_FormattedQuery := ev_FormattedQuery event;
     ev_Err := ev_Err event |}.

Section AfterQuery.
(* err.Error() *)
Variable Error_ : error -> string.

(** [time.Since(v.(time.Time))] for the stamped start, 0 when there is
    none; the type assertion panics on another value ([None]). *)
Definition measure (now : Z) (event : QueryEvent) : option Z :=
  match ev_Stash event with
  | Some stash =>
      match stash queryStartTime with
      | Some (VTime v) => Some (time_Sub now v)
      | Some _ => None
      | None => Some 0%Z
      end
  | None => Some 0%Z
  end.

Definition log_text (query : string) (duration : Z) (err : option error)
  : string :=
  let txt := "query: " ++ query in
  let txt := if decide (duration ≠ 0%Z)
             then txt ++ " [" ++ pretty (Z.quot duration 1000000) ++ " ms]"
             else txt in
  match err with
  | Some e => txt ++ String "010"%char "error: " ++ Error_ e
  | None => txt
  end.

(** What [AfterQuery] hands to [d.logger.Log]; it always returns nil.
    [None] is the panic of the type assertion. *)
Definition AfterQuery (d : dbLogger) (now : Z) (event : QueryEvent)
  : option (list (nat * ZapLevel * string)) :=
  match ev_FormattedQuery event with
  | (query, None) =>
      match measure now event with
      | None => None
      | Some duration =>
          if decide (lg_duration d ≠ 0%Z) then
            if decide (lg_duration d > duration)%Z then Some []
            else Some [(lg_logger d, WarnLevel,
                        log_text query duration (ev_Err event))]
          else Some [(lg_logger d, InfoLevel,
                      log_text query duration (ev_Err event))]
      end
  | (_, Some _) => Some []
  end.

End AfterQuery.
End dblog.

(** ** Readings used in the statements below *)

(** Where a context sends a call: to the transaction it carries, else to
    the pooled connection. *)
Definition ctx_target (ctx : Context) : Target :=
  match database.getTxFromContext ctx with
  | Some t => OnTx t
  | None => OnConn
  end.

(** A run that made exactly one driver call, on the target of [ctx], and
    left the client [c] bound to [ctx]. *)
Definition bound_call {A} (c : ClientRef) (ctx : Context) (w : World)
  (o : outcome A) : Prop :=
  (∃ req, events (world_of o) = (events w ++ [EvCall (ctx_target ctx) req])%list)
  ∧ w_tx (heap (world_of o) c) = database.getTxFromContext ctx
  ∧ w_ctx (heap (world_of o) c) = Some ctx.

(** The SET clauses [Upsert] adds for its columns. *)
Definition excluded_sets (columns : list string) : list (string * list Any) :=
  map (fun column => ((column ++ " = EXCLUDED." ++ column)%string, [])) columns.

(** The calls that clean the given schemes, when none fails. *)
Definition clean_calls (m : migrate.Migrator) (schemes : list string)
  : list migrate.MigCall :=
  flat_map (fun schema =>
    [migrate.Log (migrate.logger m) migrate.LInfo "clean schema";
     migrate.DbQuery ("DROP SCHEMA " ++ schema ++ " CASCADE")%string;
     migrate.DbQuery ("CREATE SCHEMA " ++ schema)%string]) schemes.

(** The calls cleaning makes: log lines and queries. *)
Definition only_cleaning (c : migrate.MigCall) : Prop :=
  match c with
  | migrate.Log _ _ _ | migrate.DbQuery _ => True
  | _ => False
  end.

(** An option of package migrate: [WithClean] or [WithLogger]. *)
Definition is_migrate_option (o : migrate.OptionFn) : Prop :=
  (∃ scheme, o = migrate.WithClean scheme) ∨ (∃ l, o = migrate.WithLogger l).

(** ** Further concrete environments *)

Module Samples.
Import database dao.

(** A driver on which [Begin] fails. *)
Definition env_begin_fails : Env :=
  Example.env_with (fun hist _ req =>
    match req with
    | ReqBegin =>
        {| rep_res := None; rep_err := Some (DriverErr 8); rep_count := 0;
           rep_tx := None |}
    | _ => Example.ok_reply hist
    end) Example.plain_processor.

(** A driver that finds no rows. *)
Definition env_no_rows : Env :=
  Example.env_with (fun hist _ _ =>
    {| rep_res := Some {| RowsAffected := 0; RowsReturned := 0 |};
       rep_err := None; rep_count := 0; rep_tx := None |})
    Example.plain_processor.

Definition fn_nil (_ : Context) : M (option error) := mret None.

(** Migration engines: one on which everything succeeds, one that
    reports no change, one on a fresh database whose version cannot be
    read, one on which every query fails. *)
Definition engine_ok (_ : list migrate.MigCall) (_ : migrate.MigCall)
  : migrate.MigReply :=
  {| migrate.m_err := None; migrate.m_version := 3; migrate.m_dirty := false |}.

Definition engine_no_change (_ : list migrate.MigCall) (c : migrate.MigCall)
  : migrate.MigReply :=
  match c with
  | migrate.Up =>
      {| migrate.m_err := Some migrate.ErrNoChange; migrate.m_version := 0;
         migrate.m_dirty := false |}
  | _ => {| migrate.m_err := None; migrate.m_version := 3;
            migrate.m_dirty := false |}
  end.

Definition engine_fresh (_ : list migrate.MigCall) (c : migrate.MigCall)
  : migrate.MigReply :=
  match c with
  | migrate.Version =>
      {| migrate.m_err := Some (migrate.MigOther 1); migrate.m_version := 0;
         migrate.m_dirty := false |}
  | _ => {| migrate.m_err := None; migrate.m_version := 0;
            migrate.m_dirty := false |}
  end.

Definition engine_query_fails (_ : list migrate.MigCall) (c : migrate.MigCall)
  : migrate.MigReply :=
  match c with
  | migrate.DbQuery _ =>
      {| migrate.m_err := Some (migrate.MigOther 2); migrate.m_version := 0;
         migrate.m_dirty := false |}
  | _ => {| migrate.m_err := None; migrate.m_version := 0;
            migrate.m_dirty := false |}
  end.

Definition engine_open_fails (_ : list migrate.MigCall) (c : migrate.MigCall)
  : migrate.MigReply :=
  match c with
  | migrate.SqlOpen _ _ =>
      {| migrate.m_err := Some (migrate.MigOther 3); migrate.m_version := 0;
         migrate.m_dirty := false |}
  | _ => {| migrate.m_err := None; migrate.m_version := 0;
            migrate.m_dirty := false |}
  end.

Definition error_text (e : error) : string :=
  match e with
  | ErrNoRows => "pg: no rows in result set"
  | _ => "error"
  end.

Definition event_plain : dblog.QueryEvent :=
  {| dblog.ev_Stash := None; dblog.ev_FormattedQuery := ("select 1", None);
     dblog.ev_Err := None |}.

End Samples.

(** * Properties *)

Import database dao.

(** Unfolds the monad so that a run reduces by [simpl]. *)
Ltac run := unfold mbind, M_bind, mret, M_ret, deref, store, panic in *;
  simpl in *.

Lemma bind_Ret {A B} (m : M A) (k : A → M B) (w : World) (a : A)
  (w' : World) :
  m w = Ret a w' → (m ≫= k) w = k a w'.
Proof. intros H. unfold mbind, M_bind. by rewrite H. Qed.

(** ** The transaction carried by a context *)

Lemma getTxFromContext_newTxContext (ctx : Context) (tx : option TxId) :
  getTxFromContext (newTxContext ctx tx) = tx.
Proof. reflexivity. Qed.

Lemma WithContext_stores (c : ClientRef) (ctx : Context) (w : World) :
  returned (WithContext c ctx w) = Some c
  ∧ w_tx (heap (world_of (WithContext c ctx w)) c) = getTxFromContext ctx
  ∧ w_ctx (heap (world_of (WithContext c ctx w)) c) = Some ctx
  ∧ events (world_of (WithContext c ctx w)) = events w.
Proof.
  unfold WithContext. run. rewrite decide_True by done. done.
Qed.

(** C5. A transaction stored in a context by [newTxContext] is read back
    by [getTxFromContext] unchanged, so a client bound to that context
    with [WithContext] has exactly this transaction as its active one; a
    client bound to a context that carries no value under [TxKey] has no
    active transaction. *)
Theorem tx_context_roundtrip (c : ClientRef) (ctx ctx0 : Context)
  (tx : option TxId) (w : World) :
  ctx_Value ctx0 TxKeyAddr = VNil →
  getTxFromContext (newTxContext ctx tx) = tx
  ∧ returned (WithContext c (newTxContext ctx tx) w) = Some c
  ∧ w_tx (heap (world_of (WithContext c (newTxContext ctx tx) w)) c) = tx
  ∧ returned (WithContext c ctx0 w) = Some c
  ∧ w_tx (heap (world_of (WithContext c ctx0 w)) c) = None.
Proof.
  intros Hnil.
  destruct (WithContext_stores c (newTxContext ctx tx) w) as (R1 & T1 & _).
  destruct (WithContext_stores c ctx0 w) as (R0 & T0 & _).
  repeat split; try assumption.
  rewrite T0. unfold getTxFromContext. by rewrite Hnil.
Qed.

Lemma tx_context_roundtrip_witness :
  ctx_Value context_Background TxKeyAddr = VNil
  ∧ w_tx (heap (world_of
      (WithContext 0 (newTxContext context_Background (Some 7))
         Example.world0)) 0) = Some 7.
Proof.
  split; [reflexivity |].
  apply (tx_context_roundtrip 0 context_Background context_Background
           (Some 7) Example.world0).
  reflexivity.
Defined.

(** ** The configured field names *)

(** C10. [New] configures the field names "updated" and "deleted".
    [SetUpdatedField] and [SetDeletedField] leave the DAO as it is when
    given the empty string, and replace their own field name by any other
    argument; the other field name and the client are kept. *)
Theorem set_field_names (r : DAO) (c : ClientRef) (fieldName : string) :
  fieldName ≠ "" →
  New c = {| db := c; updatedField := "updated"; deletedField := "deleted" |}
  ∧ SetUpdatedField r "" = r
  ∧ SetDeletedField r "" = r
  ∧ SetUpdatedField r fieldName =
      {| db := db r; updatedField := fieldName;
         deletedField := deletedField r |}
  ∧ SetDeletedField r fieldName =
      {| db := db r; updatedField := updatedField r;
         deletedField := fieldName |}.
Proof.
  intros Hne. unfold SetUpdatedField, SetDeletedField.
  rewrite !decide_True by done. rewrite !decide_False by done. done.
Qed.

Lemma set_field_names_witness :
  "changed" ≠ ""
  ∧ SetUpdatedField (New 0) "changed" =
      {| db := 0; updatedField := "changed"; deletedField := "deleted" |}.
Proof.
  split; [discriminate |].
  apply (set_field_names (New 0) 0 "changed"). discriminate.
Defined.

(** ** One-row assertions *)

Lemma assertOneRow_cases (affected : Z) :
  assertOneRow affected =
    if decide (affected = 0)%Z then Some ErrNoRows
    else if decide (1 < affected)%Z then Some ErrMultiRows
    else None.
Proof.
  unfold assertOneRow.
  destruct (Z.eqb_spec affected 0) as [->|Hne].
  - by rewrite decide_True.
  - rewrite decide_False by done.
    destruct (Z.gtb_spec affected 1).
    + rewrite decide_True by lia. done.
    + rewrite decide_False by lia. done.
Qed.

Lemma one_row_cases (res : Result) (w : World) :
  one_row (Some res, None) w =
    Ret (if decide (RowsAffected res = 0)%Z then (None, Some ErrNoRows)
         else if decide (1 < RowsAffected res)%Z then (None, Some ErrMultiRows)
         else (Some res, None)) w.
Proof.
  unfold one_row. rewrite assertOneRow_cases.
  repeat case_decide; reflexivity.
Qed.

(** C8, as the code has it.  When the underlying [Exec] or [Query]
    succeeds with a result, [ExecOne] and [QueryOne] return
    [pg.ErrNoRows] if the affected-row count is 0, [pg.ErrMultiRows] if it
    is greater than 1, and otherwise the result with a nil error; the
    last case is the count 1 and every negative count. *)
Theorem one_row_results (E : Env) (k : OneRowCall) (c : ClientRef)
  (query : Any) (params : list Any) (w w1 : World) (res : Result) :
  underlying E k c query params w = Ret (Some res, None) w1 →
  one_row_call E k c query params w =
    Ret (if decide (RowsAffected res = 0)%Z then (None, Some ErrNoRows)
         else if decide (1 < RowsAffected res)%Z
              then (None, Some ErrMultiRows)
              else (Some res, None)) w1
  ∧ (∀ n : Z, assertOneRow n = None ↔ (n = 1 ∨ n < 0)%Z).
Proof.
  intros Hrun. split.
  - destruct k; simpl in *; unfold ExecOne, QueryOne;
      rewrite (bind_Ret _ _ _ _ _ Hrun); apply one_row_cases.
  - intros n. rewrite assertOneRow_cases.
    repeat case_decide; split; intros; try discriminate; try lia; done.
Qed.

Lemma one_row_results_witness :
  ExecOne Example.env 0 (VString "select 1") [] Example.world0
  = Ret (Some {| RowsAffected := 1; RowsReturned := 1 |}, None)
        (world_of (Exec Example.env 0 (VString "select 1") [] Example.world0))
  ∧ QueryOne Example.env 0 (ROther VNil) (VString "select 1") []
      Example.world0
  = Ret (Some {| RowsAffected := 1; RowsReturned := 1 |}, None)
        (world_of (Query_ Example.env 0 (ROther VNil) (VString "select 1") []
                     Example.world0)).
Proof.
  split.
  - exact (proj1 (one_row_results Example.env ViaExec 0
                    (VString "select 1") [] Example.world0 _
                    {| RowsAffected := 1; RowsReturned := 1 |} eq_refl)).
  - exact (proj1 (one_row_results Example.env (ViaQuery (ROther VNil)) 0
                    (VString "select 1") [] Example.world0 _
                    {| RowsAffected := 1; RowsReturned := 1 |} eq_refl)).
Defined.

(** On a result whose count is -1 [ExecOne] returns the result with a nil
    error although the count is not 1. *)
Lemma one_row_negative_count :
  let res := {| RowsAffected := -1; RowsReturned := 0 |} in
  returned (Exec Example.env_no_count 0 (VString "BEGIN") [] Example.world0)
    = Some (Some res, None)
  ∧ returned (ExecOne Example.env_no_count 0 (VString "BEGIN") []
                Example.world0) = Some (Some res, None)
  ∧ RowsAffected res ≠ 1%Z.
Proof. repeat split. discriminate. Qed.

(** ** The client as a pass-through *)

Lemma Exec_processor_forward (E : Env) (c : ClientRef) (query : Any)
  (params : list Any) (w : World) :
  Exec_processor E c query params w
  = forward_res E c (fun _ => ReqExec query params) w.
Proof.
  unfold Exec_processor, forward_res, forward, target. run.
  by destruct (w_tx (heap w c)).
Qed.

Lemma Query_processor_forward (E : Env) (c : ClientRef) (model : Iface)
  (query : Any) (params : list Any) (w : World) :
  Query_processor E c model query params w
  = forward_res E c (fun _ => ReqQuery model query params) w.
Proof.
  unfold Query_processor, forward_res, forward, target. run.
  by destruct (w_tx (heap w c)).
Qed.

Lemma NewDbClient_no_processor (options : list (dbWrapper -> dbWrapper)) :
  Forall (fun o => ∃ logger duration, o = WithLogger logger duration) options →
  NewDbClient options
  = {| w_ctx := None; w_tx := None; w_wrappedProcessor := None |}.
Proof.
  unfold NewDbClient.
  generalize {| w_ctx := None; w_tx := None; w_wrappedProcessor := None |}.
  induction options as [|o options IH]; intros d Hall; [done |].
  inversion Hall as [|? ? (logger & duration & ->) Hrest]; subst.
  simpl. unfold WithLogger at 1. by apply IH.
Qed.

Lemma processor_kept (E : Env) (c c' : ClientRef) (ctx : Context) (w : World) :
  w_wrappedProcessor (heap (world_of (StartTx E c w)) c')
  = w_wrappedProcessor (heap w c')
  ∧ w_wrappedProcessor (heap (world_of (Commit E c w)) c')
    = w_wrappedProcessor (heap w c')
  ∧ w_wrappedProcessor (heap (world_of (Rollback E c w)) c')
    = w_wrappedProcessor (heap w c')
  ∧ w_wrappedProcessor (heap (world_of (WithContext c ctx w)) c')
    = w_wrappedProcessor (heap w c').
Proof.
  unfold StartTx, Commit, Rollback, WithContext, call, set_tx. run.
  repeat split.
  - destruct (rep_err (driver E (events w) OnConn ReqBegin)); simpl; [done |].
    by destruct (decide (c' = c)) as [-> |].
  - destruct (w_tx (heap w c)); simpl; [| done].
    by destruct (decide (c' = c)) as [-> |].
  - destruct (w_tx (heap w c)); simpl; [| done].
    by destruct (decide (c' = c)) as [-> |].
  - simpl. by destruct (decide (c' = c)) as [-> |].
Qed.

(** C6.  The wrapped processor of a client is never set: [NewDbClient]
    starts from a wrapper without one, the only option of the package,
    [WithLogger], returns the wrapper it was given, and [StartTx],
    [Commit], [Rollback] and [WithContext] keep the field.  On such a
    client every listed operation, [Exec] and [Query] among them,
    forwards its arguments to the active transaction when one is set and
    to the pooled connection otherwise, and returns what it gets back. *)
Theorem client_passthrough (E : Env) (c : ClientRef) (w : World)
  (model values : Iface) (models : list Iface) (query : Any)
  (params : list Any) (r iw : nat) (b qs : string) (ctx : Context) :
  let d := heap w c in
  w_wrappedProcessor d = None →
  Select E c model w
    = forward_err E c
        (fun t => ReqOrm (WherePK (target_Model E t [model])) DoSelect) w
  ∧ database.Insert E c models w
    = forward_err E c (fun t => ReqOrm (target_Model E t models) DoInsert) w
  ∧ database.Update E c model w
    = forward_err E c
        (fun t => ReqOrm (WherePK (target_Model E t [model])) DoUpdate) w
  ∧ Delete E c model w
    = forward_err E c
        (fun t => ReqOrm (WherePK (target_Model E t [model])) DoDelete) w
  ∧ ForceDelete E c values w
    = forward_err E c
        (fun t => ReqOrm (WherePK (target_Model E t [values])) DoForceDelete) w
  ∧ Exec E c query params w
    = forward_res E c (fun _ => ReqExec query params) w
  ∧ Query_ E c model query params w
    = forward_res E c (fun _ => ReqQuery model query params) w
  ∧ CopyFrom E c r query params w
    = forward_res E c (fun _ => ReqCopyFrom r query params) w
  ∧ CopyTo E c iw query params w
    = forward_res E c (fun _ => ReqCopyTo iw query params) w
  ∧ ExecContext E c ctx query params w
    = forward_res E c (fun _ => ReqExecContext ctx query params) w
  ∧ ExecOneContext E c ctx query params w
    = forward_res E c (fun _ => ReqExecOneContext ctx query params) w
  ∧ QueryContext E c ctx model query params w
    = forward_res E c (fun _ => ReqQueryContext ctx model query params) w
  ∧ QueryOneContext E c ctx model query params w
    = forward_res E c (fun _ => ReqQueryOneContext ctx model query params) w
  ∧ ModelContext c ctx models w
    = Ret (NewQuery (Direct (target d)) (Some ctx) models) w
  ∧ FormatQuery E c b qs params w
    = Ret (fmt_FormatQuery E (drv_Formatter E (target d)) b qs params) w
  ∧ Formatter_ E c w = Ret (drv_Formatter E (target d)) w
  ∧ Context_ E c w = Ret (drv_Context E (target d)) w
  ∧ (∀ options,
       Forall (fun o => ∃ logger duration, o = WithLogger logger duration)
         options →
       w_wrappedProcessor (NewDbClient options) = None)
  ∧ w_wrappedProcessor (heap (world_of (StartTx E c w)) c) = None
  ∧ w_wrappedProcessor (heap (world_of (Commit E c w)) c) = None
  ∧ w_wrappedProcessor (heap (world_of (Rollback E c w)) c) = None
  ∧ w_wrappedProcessor (heap (world_of (WithContext c ctx w)) c) = None.
Proof.
  intros d Hnone. subst d.
  destruct (processor_kept E c c ctx w) as (Hs & Hc & Hr & Hw).
  repeat split;
    try (unfold Select, database.Insert, database.Update, Delete, ForceDelete,
           CopyFrom, CopyTo, ExecContext, ExecOneContext, QueryContext,
           QueryOneContext, ModelContext, FormatQuery, Formatter_, Context_,
           forward_err, forward_res, forward, target, run_query, target_Model;
         run; by destruct (w_tx (heap w c)));
    try congruence.
  - unfold Exec. run. rewrite Hnone. apply Exec_processor_forward.
  - unfold Query_. run. rewrite Hnone. apply Query_processor_forward.
  - intros options Hall. by rewrite NewDbClient_no_processor.
Qed.

Lemma client_passthrough_witness :
  w_wrappedProcessor (heap Example.world_in_tx 0) = None
  ∧ returned (Exec Example.env 0 (VString "select 1") [] Example.world_in_tx)
    = Some (Some {| RowsAffected := 1; RowsReturned := 1 |}, None)
  ∧ events (world_of (Exec Example.env 0 (VString "select 1") []
                        Example.world_in_tx))
    = [EvCall (OnTx 3) (ReqExec (VString "select 1") [])]
  ∧ events (world_of (Exec Example.env 0 (VString "select 1") []
                        Example.world0))
    = [EvCall OnConn (ReqExec (VString "select 1") [])].
Proof.
  pose proof (client_passthrough Example.env 0 Example.world_in_tx
                (ROther VNil) (ROther VNil) [] (VString "select 1") [] 0 0
                "" "" context_Background eq_refl) as Hin.
  pose proof (client_passthrough Example.env 0 Example.world0
                (ROther VNil) (ROther VNil) [] (VString "select 1") [] 0 0
                "" "" context_Background eq_refl) as Hout.
  destruct Hin as (_ & _ & _ & _ & _ & Hin & _).
  destruct Hout as (_ & _ & _ & _ & _ & Hout & _).
  split; [reflexivity |]. rewrite Hin, Hout. repeat split.
Defined.

(** ** At most one active transaction *)

Lemma StartTx_run (E : Env) (c : ClientRef) (w : World) :
  let rep := driver E (events w) OnConn ReqBegin in
  let o := StartTx E c w in
  events (world_of o) = (events w ++ [EvCall OnConn ReqBegin])%list
  ∧ match rep_err rep with
    | None => returned o = Some (rep_tx rep, None)
              ∧ w_tx (heap (world_of o) c) = rep_tx rep
    | Some err => returned o = Some (None, Some err)
                  ∧ w_tx (heap (world_of o) c) = w_tx (heap w c)
    end.
Proof.
  unfold StartTx, call, set_tx. run.
  destruct (rep_err (driver E (events w) OnConn ReqBegin)); simpl.
  - done.
  - rewrite decide_True by done. done.
Qed.

Lemma Commit_run (E : Env) (c : ClientRef) (w : World) :
  let o := Commit E c w in
  w_tx (heap (world_of o) c) = None
  ∧ match w_tx (heap w c) with
    | Some t =>
        returned o = Some (rep_err (driver E (events w) (OnTx t) ReqCommit))
        ∧ events (world_of o) = (events w ++ [EvCall (OnTx t) ReqCommit])%list
    | None => returned o = None ∧ events (world_of o) = events w
    end.
Proof.
  unfold Commit, call, set_tx. run.
  destruct (w_tx (heap w c)) eqn:Ht; simpl.
  - rewrite decide_True by done. done.
  - done.
Qed.

Lemma Rollback_run (E : Env) (c : ClientRef) (w : World) :
  let o := Rollback E c w in
  w_tx (heap (world_of o) c) = None
  ∧ match w_tx (heap w c) with
    | Some t =>
        returned o = Some (rep_err (driver E (events w) (OnTx t) ReqRollback))
        ∧ events (world_of o)
          = (events w ++ [EvCall (OnTx t) ReqRollback])%list
    | None => returned o = None ∧ events (world_of o) = events w
    end.
Proof.
  unfold Rollback, call, set_tx. run.
  destruct (w_tx (heap w c)) eqn:Ht; simpl.
  - rewrite decide_True by done. done.
  - done.
Qed.




Section OneOpen.
Variable E : Env.
Variable c : ClientRef.











End OneOpen.








(** ** Commit or rollback in [WithTX] *)

Lemma WithTX_rollback_tail (E : Env) (c : ClientRef) (ctx : Context)
  (err : option error) (w2 : World) (t : TxId) :
  w_tx (heap w2 c) = Some t →
  let o :=
    (rollbackErr ← Rollback E c;
     _ ← match rollbackErr with
         | Some e => log_event (EvLogRollbackFailed e)
         | None => mret tt
         end;
     cerr' ← ctx_Err ctx;
     match cerr' with
     | Some e => mret (Some e)
     | None => mret err
     end) w2 in
  events (world_of o)
  = (events w2 ++ EvCall (OnTx t) ReqRollback ::
       match rep_err (driver E (events w2) (OnTx t) ReqRollback) with
       | Some e => [EvLogRollbackFailed e]
       | None => []
       end)%list
  ∧ returned o = Some (match done w2 (ctx_cancel ctx) with
                       | Some ce => Some ce
                       | None => err
                       end).
Proof.
  intros Hkept. unfold Rollback, call, set_tx, log_event, ctx_Err. run.
  rewrite Hkept. simpl.
  destruct (rep_err (driver E (events w2) (OnTx t) ReqRollback)); simpl;
    destruct (done w2 (ctx_cancel ctx)); simpl;
    rewrite <- ?app_assoc; done.
Qed.

Lemma WithTX_commit_tail (E : Env) (c : ClientRef) (ctx : Context)
  (w2 : World) (t : TxId) :
  w_tx (heap w2 c) = Some t →
  let o :=
    (cmt ← Commit E c;
     match cmt with
     | Some e => mret (Some (pkgerr.Convert E ctx e))
     | None => mret None
     end) w2 in
  events (world_of o) = (events w2 ++ [EvCall (OnTx t) ReqCommit])%list
  ∧ returned o
    = Some (converted E ctx
              (rep_err (driver E (events w2) (OnTx t) ReqCommit))).
Proof.
  intros Hkept. unfold Commit, call, set_tx, converted. run.
  rewrite Hkept. simpl.
  by destruct (rep_err (driver E (events w2) (OnTx t) ReqCommit)).
Qed.

Lemma WithTX_new_tx_unfold (E : Env) (r : DAO) (ctx : Context)
  (fn : Context -> M (option error)) (w w0 w1 w2 : World) (c : ClientRef)
  (tx : option TxId) (err : option error) :
  w_tx (heap w (db r)) = None →
  WithContext (db r) ctx w = Ret c w0 →
  StartTx E c w0 = Ret (tx, None) w1 →
  fn (newTxContext ctx tx) w1 = Ret err w2 →
  WithTX E r ctx fn w
  = (if bool_decide (err ≠ None)
        || bool_decide (done w2 (ctx_cancel ctx) ≠ None)
     then
       rollbackErr ← Rollback E (db r);
       _ ← match rollbackErr with
           | Some e => log_event (EvLogRollbackFailed e)
           | None => mret tt
           end;
       cerr' ← ctx_Err ctx;
       match cerr' with
       | Some e => mret (Some e)
       | None => mret err
       end
     else
       cmt ← Commit E (db r);
       match cmt with
       | Some e => mret (Some (pkgerr.Convert E ctx e))
       | None => mret None
       end) w2.
Proof.
  intros Hnone HW HS Hfn.
  unfold WithTX.
  unfold mbind at 1. unfold M_bind at 1.
  unfold Tx at 1. unfold mbind at 1. unfold M_bind at 1. unfold deref at 1.
  unfold mret at 1. unfold M_ret at 1. rewrite Hnone.
  unfold mbind at 1. unfold M_bind at 1. rewrite HW.
  unfold mbind at 1. unfold M_bind at 1. rewrite HS.
  unfold mbind at 1. unfold M_bind at 1. rewrite Hfn.
  unfold mbind at 1. unfold M_bind at 1. unfold ctx_Err at 1.
  reflexivity.
Qed.

(** C2, as the code has it.  [WithTX] on a client with no active
    transaction begins one.  When the passed function returns and the
    client's active transaction is then still the one begun, that
    transaction is committed exactly when the function returned nil and
    the context is not cancelled, and the converted commit error is
    returned; otherwise it is rolled back, a rollback failure is only
    logged, and the context's error is returned if there is one, else the
    function's error. *)
Theorem WithTX_commit_or_rollback (E : Env) (r : DAO) (ctx : Context)
  (fn : Context -> M (option error)) (w w0 w1 w2 : World) (c : ClientRef)
  (t : TxId) (err : option error) :
  w_tx (heap w (db r)) = None →
  WithContext (db r) ctx w = Ret c w0 →
  StartTx E c w0 = Ret (Some t, None) w1 →
  fn (newTxContext ctx (Some t)) w1 = Ret err w2 →
  w_tx (heap w2 (db r)) = Some t →
  let o := WithTX E r ctx fn w in
  match err, done w2 (ctx_cancel ctx) with
  | None, None =>
      events (world_of o) = (events w2 ++ [EvCall (OnTx t) ReqCommit])%list
      ∧ returned o
        = Some (converted E ctx
                  (rep_err (driver E (events w2) (OnTx t) ReqCommit)))
  | _, cancelled =>
      events (world_of o)
      = (events w2 ++ EvCall (OnTx t) ReqRollback ::
           match rep_err (driver E (events w2) (OnTx t) ReqRollback) with
           | Some e => [EvLogRollbackFailed e]
           | None => []
           end)%list
      ∧ returned o = Some (match cancelled with
                           | Some ce => Some ce
                           | None => err
                           end)
  end.
Proof.
  intros Hnone HW HS Hfn Hkept o. subst o.
  rewrite (WithTX_new_tx_unfold E r ctx fn w w0 w1 w2 c (Some t) err)
    by assumption.
  pose proof (WithTX_rollback_tail E (db r) ctx err w2 t Hkept) as HR.
  pose proof (WithTX_commit_tail E (db r) ctx w2 t Hkept) as HC.
  destruct err as [e|], (done w2 (ctx_cancel ctx)) as [ce|]; simpl;
    first [exact HR | exact HC].
Qed.

Lemma WithTX_commit_or_rollback_witness :
  let o := WithTX Example.env (New 0) context_Background
             Example.fn_inner_context Example.world0 in
  returned o = Some None ∧ omap tx_end (events (world_of o)) = [(0, true)].
Proof.
  split.
  - exact (proj2 (WithTX_commit_or_rollback Example.env (New 0)
             context_Background Example.fn_inner_context Example.world0
             (world_of (WithContext 0 context_Background Example.world0))
             (world_of (StartTx Example.env 0
                (world_of (WithContext 0 context_Background Example.world0))))
             (world_of (Example.fn_inner_context
                (newTxContext context_Background (Some 0))
                (world_of (StartTx Example.env 0
                   (world_of (WithContext 0 context_Background
                                Example.world0))))))
             0 0 None eq_refl eq_refl eq_refl eq_refl eq_refl)).
  - reflexivity.
Defined.

(** The passed function binds the shared client to a context that carries
    transaction 99 and returns nil; the context is not cancelled.  The
    transaction [WithTX] began is 0: it is neither committed nor rolled
    back, transaction 99 is committed instead. *)
Lemma WithTX_commits_other_transaction :
  let o := WithTX Example.env (New 0) context_Background Example.fn_rebinds
             Example.world0 in
  w_tx (heap Example.world0 (db (New 0))) = None
  ∧ rep_tx (driver Example.env [] OnConn ReqBegin) = Some 0
  ∧ returned o = Some None
  ∧ done (world_of o) (ctx_cancel context_Background) = None
  ∧ events (world_of o) = [EvCall OnConn ReqBegin; EvCall (OnTx 99) ReqCommit]
  ∧ omap tx_end (events (world_of o)) = [(99, true)].
Proof. repeat split. Qed.

(** The passed function uses the DAO with a context that carries no
    transaction: its insert goes to the pooled connection, the client is
    left without an active transaction, and the commit in [WithTX]
    panics; the transaction begun is neither committed nor rolled back. *)
Lemma WithTX_unbound_client_panics :
  let o := WithTX Example.env (New 0) context_Background
             Example.fn_outer_context Example.world0 in
  returned o = None ∧ omap tx_end (events (world_of o)) = [].
Proof. repeat split. Qed.

(** ** [UpdateWhere] *)

Lemma list_pair_ind {A} (P : list A → Prop) :
  P [] → (∀ x, P [x]) → (∀ x y l, P l → P (x :: y :: l)) → ∀ l, P l.
Proof.
  intros H0 H1 H2.
  assert (H : ∀ l, P l ∧ ∀ x, P (x :: l)).
  { induction l as [|y l [IH1 IH2]]; split; auto. }
  intros l. apply H.
Qed.

Lemma add_sets_nil (q : Query) : add_sets q [] = q.
Proof. destruct q. unfold add_sets. simpl. by rewrite app_nil_r. Qed.

Lemma add_sets_Set (q : Query) (s : string) (params : list Any)
  (sets : list (string * list Any)) :
  add_sets (Set_ q s params) sets = add_sets q ((s, params) :: sets).
Proof. unfold add_sets, Set_. simpl. by rewrite <- app_assoc. Qed.

Lemma set_pairs_run (l : list Any) :
  Nat.odd (length l) = false →
  ∀ (q : Query) (w : World),
    if forallb is_string (at_even_index l)
    then set_pairs q l w = Ret (inl (add_sets q (set_clauses l))) w
    else ∃ cause, set_pairs q l w = Ret (inr (AppErr Internal cause)) w.
Proof.
  induction l as [| x | x y l IH] using list_pair_ind; intros Hlen q w.
  - simpl. by rewrite add_sets_nil.
  - discriminate.
  - change (Nat.odd (length (x :: y :: l))) with (Nat.odd (length l)) in Hlen.
    specialize (IH Hlen).
    destruct x; simpl; try (eexists; reflexivity).
    specialize (IH (Set_ q (s ++ " = ?")%string [y]) w).
    destruct (forallb is_string (at_even_index l)).
    + rewrite IH. by rewrite add_sets_Set.
    + exact IH.
Qed.

Lemma at_even_index_app (l : list Any) (a b : Any) :
  Nat.odd (length l) = false →
  at_even_index (l ++ [a; b]) = (at_even_index l ++ [a])%list.
Proof.
  induction l as [| x | x y l IH] using list_pair_ind; intros Hlen.
  - reflexivity.
  - discriminate.
  - change (Nat.odd (length (x :: y :: l))) with (Nat.odd (length l)) in Hlen.
    simpl. f_equal. apply IH, Hlen.
Qed.

Lemma set_clauses_app (l : list Any) (f : string) (v : Any) :
  Nat.odd (length l) = false →
  forallb is_string (at_even_index l) = true →
  set_clauses (l ++ [VString f; v])
  = (set_clauses l ++ [((f ++ " = ?")%string, [v])])%list.
Proof.
  induction l as [| x | x y l IH] using list_pair_ind; intros Hlen Hstr.
  - reflexivity.
  - discriminate.
  - change (Nat.odd (length (x :: y :: l))) with (Nat.odd (length l)) in Hlen.
    destruct x; try discriminate. simpl in *. f_equal. by apply IH.
Qed.

Lemma parity_of_nat (n : nat) :
  Z.odd (Z.of_nat n) = Nat.odd n ∧ Z.even (Z.of_nat n) = Nat.even n.
Proof.
  induction n as [|n [IHo IHe]]; [done |].
  rewrite Nat2Z.inj_succ, Z.odd_succ, Z.even_succ, Nat.odd_succ,
    Nat.even_succ. done.
Qed.

Lemma land_1_odd (n : nat) :
  Z.land (Z.of_nat n) 1 ≠ 0%Z ↔ Nat.odd n = true.
Proof.
  change 1%Z with (Z.ones 1). rewrite Z.land_ones by lia.
  change (2 ^ 1)%Z with 2%Z.
  rewrite <- Z.bit0_mod, Z.bit0_odd, (proj1 (parity_of_nat n)).
  by destruct (Nat.odd n).
Qed.

(** What a run of [UpdateWhere] does, by the shape of the pairs. *)
Lemma UpdateWhere_run (E : Env) (r : DAO) (ctx : Context) (rec : Iface)
  (opts : list nat) (pairs : list Any) (w : World) :
  let o := UpdateWhere E r ctx rec opts pairs w in
  let tgt := match getTxFromContext ctx with
             | Some t => OnTx t
             | None => OnConn
             end in
  let q := add_sets
             (Apply (NewQuery (ViaWrapper (db r)) (Some ctx) [rec])
                (OptApply opts))
             (set_clauses pairs ++
              [((updatedField r ++ " = ?")%string, [VTime (clock w)])]) in
  if malformed_pairs pairs then
    (∃ cause, returned o = Some (Some (AppErr Internal cause)))
    ∧ events (world_of o) = events w
  else
    events (world_of o) = (events w ++ [EvCall tgt (ReqOrm q DoUpdate)])%list
    ∧ returned o
      = Some (converted E ctx
                (rep_err (driver E (events w) tgt (ReqOrm q DoUpdate)))).
Proof.
  intros o tgt q. subst o. unfold malformed_pairs, UpdateWhere.
  destruct (Nat.odd (length pairs)) eqn:Hodd; simpl.
  - rewrite decide_True by (by apply land_1_odd). simpl.
    split; [eexists; reflexivity | reflexivity].
  - rewrite decide_False
      by (rewrite land_1_odd; by rewrite Hodd).
    unfold time_Now, WithContext, Model, run_query, call. run.
    rewrite decide_True by done. simpl.
    set (l := (pairs ++ [VString (updatedField r); VTime (clock w)])%list).
    assert (Hl : Nat.odd (length l) = false).
    { subst l. rewrite length_app. simpl.
      rewrite Nat.add_comm. simpl. exact Hodd. }
    match goal with
    | |- context [set_pairs ?q0 l ?w0] =>
        pose proof (set_pairs_run l Hl q0 w0) as Hrun
    end.
    subst l. rewrite at_even_index_app in Hrun by exact Hodd.
    rewrite forallb_app in Hrun. simpl in Hrun.
    rewrite andb_true_r in Hrun.
    destruct (forallb is_string (at_even_index pairs)) eqn:Hstr; simpl.
    + rewrite Hrun. simpl. rewrite decide_True by done. simpl.
      rewrite set_clauses_app by assumption.
      subst q tgt. unfold add_sets, Apply, NewQuery. simpl.
      destruct (getTxFromContext ctx); simpl; done.
    + destruct Hrun as [cause ->]. simpl.
      split; [eexists; reflexivity | reflexivity].
Qed.

(** C9.  [UpdateWhere] with pairs of odd length, or with an element at an
    even index that is not a string, returns an internal error and makes
    no call to the database.  Otherwise it makes one update whose SET
    clauses are the given field/value pairs, in order, followed by the
    configured updated field set to the current time, and returns the
    converted error of that update. *)
Theorem UpdateWhere_pairs (E : Env) (r : DAO) (ctx : Context) (rec : Iface)
  (opts : list nat) (pairs : list Any) (w : World) :
  let o := UpdateWhere E r ctx rec opts pairs w in
  let tgt := match getTxFromContext ctx with
             | Some t => OnTx t
             | None => OnConn
             end in
  let q := add_sets
             (Apply (NewQuery (ViaWrapper (db r)) (Some ctx) [rec])
                (OptApply opts))
             (set_clauses pairs ++
              [((updatedField r ++ " = ?")%string, [VTime (clock w)])]) in
  if malformed_pairs pairs then
    (∃ cause, returned o = Some (Some (AppErr Internal cause)))
    ∧ events (world_of o) = events w
  else
    events (world_of o) = (events w ++ [EvCall tgt (ReqOrm q DoUpdate)])%list
    ∧ returned o
      = Some (converted E ctx
                (rep_err (driver E (events w) tgt (ReqOrm q DoUpdate)))).
Proof. apply UpdateWhere_run. Qed.

Example UpdateWhere_odd :
  returned (UpdateWhere Example.env (New 0) context_Background
              (RPtr (Example.agent 1 "a")) [] [VString "inn"] Example.world0)
  = Some (Some (AppErr Internal
      (ErrFmt "UpdateWhere: setFieldValuePairs must be even, got %d"
         [VInt 1]))).
Proof. reflexivity. Qed.

Example UpdateWhere_not_string :
  let o := UpdateWhere Example.env (New 0) context_Background
             (RPtr (Example.agent 1 "a")) []
             [VString "inn"; VString "222"; VInt 5; VString "x"]
             Example.world0 in
  returned o
  = Some (Some (AppErr Internal
      (ErrFmt "UpdateWhere: field must be string, got %T (%v)"
         [VInt 5; VInt 5])))
  ∧ events (world_of o) = [].
Proof. split; reflexivity. Qed.

Example UpdateWhere_sets :
  let o := UpdateWhere Example.env (New 0) context_Background
             (RPtr (Example.agent 1 "a")) [7]
             [VString "inn"; VString "222"] Example.world0 in
  returned o = Some None
  ∧ match events (world_of o) with
    | [EvCall OnConn (ReqOrm q DoUpdate)] =>
        q_set q = [("inn = ?", [VString "222"]); ("updated = ?", [VTime 1000])]
    | _ => False
    end.
Proof. split; reflexivity. Qed.

(** ** Error conversion in the DAO *)

Ltac dao_run :=
  unfold FindOne, FindList, FindListWithTotal, GetTotal, dao.Insert,
    dao.Update, HardDelete, HardDeleteWhere, UpdateWithReturning,
    database.Insert, database.Delete, elem_is_not_slice, converted,
    WithContext, Model, run_query, call, time_Now;
  run; rewrite ?decide_True by done; simpl.

Lemma converted_app_error (E : Env) (ctx : Context) (err : option error)
  (e : error) :
  converted E ctx err = Some e → pkgerr.is_app_error e = true.
Proof. destruct err; simpl; intros [= <-]. reflexivity. Qed.

Lemma Update_converts (E : Env) (r : DAO) (ctx : Context) (rec : Iface)
  (columns : list string) (w : World) (e : error) :
  returned (dao.Update E r ctx rec columns w) = Some (Some e) →
  pkgerr.is_app_error e = true.
Proof.
  destruct rec as [| | | | | v]; [.. | destruct v as [| | | | [tx |] | |]];
    dao_run; try discriminate;
    try (destruct (elem_not_slice E _) as [[] |]; simpl; try discriminate);
    rewrite ?decide_True by done; simpl;
    destruct (getTxFromContext ctx); simpl;
    intros [= H]; by apply converted_app_error in H.
Qed.

(** Ten of the eleven operations return a failure of the driver
    converted to an application error. *)
Lemma dao_failures_converted (E : Env) (r : DAO) (ctx : Context)
  (rec : Iface) (recs : list Iface) (s : Struct) (opts : list nat)
  (columns : list string) (pairs : list Any) (w : World) (e : error) (n : Z) :
  (returned (FindOne E r ctx rec opts w) = Some (Some e)
   ∨ returned (FindList E r ctx rec opts w) = Some (Some e)
   ∨ returned (FindListWithTotal E r ctx rec opts w) = Some (n, Some e)
   ∨ returned (GetTotal E r ctx rec opts w) = Some (n, Some e)
   ∨ returned (dao.Insert E r ctx recs w) = Some (Some e)
   ∨ returned (dao.Update E r ctx rec columns w) = Some (Some e)
   ∨ returned (UpdateWhere E r ctx rec opts pairs w) = Some (Some e)
   ∨ returned (SoftDelete E r ctx s w) = Some (Some e)
   ∨ returned (HardDelete E r ctx rec w) = Some (Some e)
   ∨ returned (HardDeleteWhere E r ctx rec opts w) = Some (Some e)) →
  pkgerr.is_app_error e = true.
Proof.
  intros [H|[H|[H|[H|[H|[H|[H|[H|[H|H]]]]]]]]].
  - revert H. dao_run. destruct (getTxFromContext ctx); simpl;
      intros [= H]; by apply converted_app_error in H.
  - revert H. dao_run. destruct (getTxFromContext ctx); simpl;
      intros [= H]; by apply converted_app_error in H.
  - revert H. dao_run. destruct (getTxFromContext ctx); simpl;
      destruct (rep_err _); simpl; intros [= _ <-]; reflexivity.
  - revert H. dao_run. destruct (getTxFromContext ctx); simpl;
      destruct (rep_err _); simpl; intros [= _ <-]; reflexivity.
  - revert H. dao_run. destruct (getTxFromContext ctx); simpl;
      intros [= H]; by apply converted_app_error in H.
  - by apply Update_converts in H.
  - pose proof (UpdateWhere_run E r ctx rec opts pairs w) as Hp.
    simpl in Hp. destruct (malformed_pairs pairs).
    + destruct Hp as [[cause Hc] _]. rewrite Hc in H.
      injection H as <-. reflexivity.
    + destruct Hp as [_ Hc]. rewrite Hc in H. injection H as H.
      by apply converted_app_error in H.
  - revert H. unfold SoftDelete. unfold mbind at 1. unfold M_bind at 1.
    unfold time_Now at 1. unfold mbind at 1. unfold M_bind at 1.
    destruct (dao.Update E r ctx _ _ w) as [a w'|w'] eqn:HU; simpl;
      [|discriminate].
    unfold mret, M_ret. simpl. intros [= H].
    by apply converted_app_error in H.
  - revert H. dao_run. destruct (getTxFromContext ctx); simpl;
      intros [= H]; by apply converted_app_error in H.
  - revert H. dao_run. destruct (getTxFromContext ctx); simpl;
      intros [= H]; by apply converted_app_error in H.
Qed.

(** C3.  On a driver whose insert fails with an error that is not an
    application error, [Upsert] returns that very error, whereas
    [Insert] on the same record returns it converted. *)
Theorem Upsert_returns_driver_error :
  let ctx := context_Background in
  let rec := RPtr (Example.agent 111 "test11") in
  returned (Upsert Example.env_insert_fails (New 0) ctx rec ["id"] ["name"]
              Example.world0) = Some (Some (DriverErr 55))
  ∧ pkgerr.is_app_error (DriverErr 55) = false
  ∧ returned (dao.Insert Example.env_insert_fails (New 0) ctx [rec]
                Example.world0)
    = Some (Some (pkgerr.Convert Example.env_insert_fails ctx (DriverErr 55)))
  ∧ pkgerr.Convert Example.env_insert_fails ctx (DriverErr 55)
    = AppErr Internal (DriverErr 55).
Proof. repeat split. Qed.

(** ** De-duplication in [Upsert] *)

Section Unique.
Variable f : Struct -> string.

Lemma fill_rows_snoc (s : list Struct) (x : Struct) :
  fill_rows f (s ++ [x]) = <[f x := x]> (fill_rows f s).
Proof. unfold fill_rows. by rewrite fold_left_app. Qed.

Lemma fill_rows_lookup (s : list Struct) (k : string) (m : Struct) :
  fill_rows f s !! k = Some m ↔ f m = k ∧ last_with_key f s m.
Proof.
  revert k m. induction s as [|x s IH] using rev_ind; intros k m.
  - unfold fill_rows. simpl. rewrite lookup_empty. split; [done |].
    intros (_ & i & Hi & _). by rewrite lookup_nil in Hi.
  - rewrite fill_rows_snoc, lookup_insert. case_decide as Hk.
    + split.
      * intros [= <-]. split; [done |]. exists (length s). split.
        -- rewrite lookup_app_r by lia. by rewrite Nat.sub_diag.
        -- intros j m' Hj Hm'. apply lookup_lt_Some in Hm'.
           rewrite length_app in Hm'. simpl in Hm'. lia.
      * intros (Hm & i & Hi & Hlast). f_equal.
        destruct (decide (i = length s)) as [->|Hne].
        -- rewrite lookup_app_r, Nat.sub_diag in Hi by lia. by injection Hi.
        -- exfalso. pose proof (lookup_lt_Some _ _ _ Hi) as Hlt.
           rewrite length_app in Hlt. simpl in Hlt.
           apply (Hlast (length s) x); [lia | | congruence].
           rewrite lookup_app_r by lia. by rewrite Nat.sub_diag.
    + rewrite IH. split.
      * intros (Hm & i & Hi & Hlast). split; [done |]. exists i. split.
        -- rewrite lookup_app_l; [done | by eapply lookup_lt_Some].
        -- intros j m' Hj Hm'.
           destruct (decide (j < length s)) as [Hlt|Hge].
           ++ rewrite lookup_app_l in Hm' by done. by eapply Hlast.
           ++ rewrite lookup_app_r in Hm' by lia.
              rewrite list_lookup_singleton in Hm'.
              destruct (j - length s); [|done].
              injection Hm' as <-. congruence.
      * intros (Hm & i & Hi & Hlast). split; [done |].
        destruct (decide (i < length s)) as [Hlt|Hge].
        -- exists i. rewrite lookup_app_l in Hi by done. split; [done |].
           intros j m' Hj Hm'. apply (Hlast j m' Hj).
           rewrite lookup_app_l; [done | by eapply lookup_lt_Some].
        -- exfalso. rewrite lookup_app_r in Hi by lia.
           rewrite list_lookup_singleton in Hi.
           destruct (i - length s); [|done].
           injection Hi as <-. congruence.
Qed.

Lemma fill_rows_covers (s : list Struct) (m : Struct) :
  m ∈ s → is_Some (fill_rows f s !! f m).
Proof.
  induction s as [|x s IH] using rev_ind; intros Hin.
  - by apply elem_of_nil in Hin.
  - rewrite fill_rows_snoc, lookup_insert. case_decide; [done |].
    apply IH. apply elem_of_app in Hin as [Hin|Hin]; [done |].
    apply list_elem_of_singleton in Hin. congruence.
Qed.

Lemma omap_lookup_pairs (rows : gmap string Struct)
  (l : list (string * Struct)) :
  (∀ k v, (k, v) ∈ l → rows !! k = Some v) →
  omap (fun i => rows !! i) l.*1 = l.*2.
Proof.
  induction l as [|[k v] l IH]; intros H; [done |].
  simpl. rewrite (H k v) by left. f_equal.
  apply IH. intros k' v' Hin. apply H. by right.
Qed.

Lemma range_values (keys : list string) (rows : gmap string Struct) :
  keys ≡ₚ (map_to_list rows).*1 →
  omap (fun i => rows !! i) keys ≡ₚ (map_to_list rows).*2.
Proof.
  intros ->. rewrite omap_lookup_pairs; [done |].
  intros k v. by rewrite elem_of_map_to_list.
Qed.

Lemma keys_of_values (rows : gmap string Struct) :
  (∀ k v, rows !! k = Some v → f v = k) →
  f <$> (map_to_list rows).*2 = (map_to_list rows).*1.
Proof.
  intros H.
  assert (Hl : ∀ l : list (string * Struct),
             (∀ k v, (k, v) ∈ l → f v = k) → f <$> l.*2 = l.*1).
  { induction l as [|[k v] l IH]; intros Hk; [done |].
    simpl. rewrite (Hk k v) by left. f_equal.
    apply IH. intros k' v' Hin. apply Hk. by right. }
  apply Hl. intros k v Hin. apply H. by apply elem_of_map_to_list.
Qed.

(** What the loops of [GetUniqueModels] leave, whatever the order in
    which [range] visits the map. *)
Lemma unique_models (s unique : list Struct) :
  unique ≡ₚ (map_to_list (fill_rows f s)).*2 →
  NoDup (f <$> unique)
  ∧ (∀ m, m ∈ unique ↔ last_with_key f s m)
  ∧ (∀ m, m ∈ s → ∃ m', m' ∈ unique ∧ f m' = f m)
  ∧ (NoDup (f <$> s) → unique ≡ₚ s).
Proof.
  intros Hperm.
  assert (Hkey : ∀ k v, fill_rows f s !! k = Some v → f v = k).
  { intros k v Hv. by apply fill_rows_lookup in Hv as [? _]. }
  assert (Hdup : NoDup (f <$> unique)).
  { rewrite Hperm, keys_of_values by done. apply NoDup_fst_map_to_list. }
  assert (Hin : ∀ m, m ∈ unique ↔ last_with_key f s m).
  { intros m. rewrite Hperm, list_elem_of_fmap. split.
    - intros ([k v] & -> & Hkv). simpl.
      apply elem_of_map_to_list in Hkv. by apply fill_rows_lookup in Hkv as [_ ?].
    - intros Hlast. exists (f m, m). split; [done |].
      apply elem_of_map_to_list. by apply fill_rows_lookup. }
  split; [done |]. split; [done |]. split.
  - intros m Hm. destruct (fill_rows_covers s m Hm) as [m' Hm'].
    exists m'. apply fill_rows_lookup in Hm' as [Hk Hlast].
    split; [by apply Hin | done].
  - intros Hnd. apply NoDup_Permutation.
    + by eapply NoDup_fmap_1.
    + by eapply NoDup_fmap_1.
    + intros m. rewrite Hin. split.
      * intros (i & Hi & _). apply list_elem_of_lookup. eauto.
      * intros Hm. apply list_elem_of_lookup in Hm as [i Hi].
        exists i. split; [done |]. intros j m' Hj Hm' Heq.
        assert (i = j); [|lia].
        apply (NoDup_lookup (f <$> s) i j (f m) Hnd).
        -- by rewrite list_lookup_fmap, Hi.
        -- rewrite list_lookup_fmap, Hm'. simpl. by rewrite Heq.
Qed.

End Unique.

Lemma go_names_run (t : Table) (keys goNames : list string) (w : World) :
  mapM (fun key => FieldsMap t !! key) keys = Some goNames →
  go_names t keys w = Ret goNames w.
Proof.
  revert goNames. induction keys as [|key keys IH]; intros goNames.
  - intros [= <-]. reflexivity.
  - simpl. destruct (FieldsMap t !! key) as [goName|]; [|done]. simpl.
    destruct (mapM _ keys) as [names|] eqn:Hm; [|done]. simpl.
    intros [= <-]. unfold mbind, M_bind. by rewrite (IH names).
Qed.

Lemma fold_Set_fields (columns : list string) (q : Query) :
  let q' := fold_left
    (fun q column => Set_ q (column ++ " = EXCLUDED." ++ column)%string [])
    columns q in
  q_db q' = q_db q ∧ q_model q' = q_model q.
Proof.
  revert q. induction columns as [|c columns IH]; intros q; [done |].
  simpl. destruct (IH (Set_ q (c ++ " = EXCLUDED." ++ c)%string []))
    as [-> ->]. done.
Qed.

(** With the models chosen, [Upsert] makes one insert of exactly these
    models and returns the error of the driver as it is. *)
Lemma Upsert_insert_run (E : Env) (r : DAO) (ctx : Context)
  (keys columns : list string) (models : list Struct) (w : World) :
  let o :=
    (c ← WithContext (db r) ctx;
     q ← Model c [RPtrToSlice models];
     let q :=
       OnConflict q ("(" ++ String.concat "," keys ++ ") DO UPDATE")%string in
     let q := fold_left
       (fun q column => Set_ q (column ++ " = EXCLUDED." ++ column)%string [])
       columns q in
     rep ← run_query E q DoInsert;
     mret (rep_err rep)) w in
  ∃ q tgt,
    events (world_of o) = (events w ++ [EvCall tgt (ReqOrm q DoInsert)])%list
    ∧ returned o
      = Some (rep_err (driver E (events w) tgt (ReqOrm q DoInsert)))
    ∧ q_model q = [RPtrToSlice models].
Proof.
  intros o. subst o.
  unfold WithContext, Model, run_query, call. run.
  match goal with
  | |- context [fold_left ?g columns ?q0] =>
      destruct (fold_Set_fields columns q0) as [Hdb Hmodel];
      set (q := fold_left g columns q0) in *
  end.
  simpl in Hdb, Hmodel. rewrite Hdb. simpl.
  destruct (decide (db r = db r)); [|done]. simpl.
  destruct (getTxFromContext ctx) as [t|]; simpl.
  - exists q, (OnTx t). done.
  - exists q, OnConn. done.
Qed.

(** The closure [Upsert] passes computes the key of the specification. *)
Lemma upsert_key_rendered (E : Env) (goNames : list string) (m : Struct) :
  upsert_key E goNames m = rendered_key E goNames m.
Proof.
  unfold upsert_key, rendered_key, Sprint_Value. f_equal.
Qed.

Lemma fill_rows_ext (f g : Struct -> string) (s : list Struct) :
  (∀ m, f m = g m) → fill_rows f s = fill_rows g s.
Proof.
  intros Hfg. unfold fill_rows. generalize (∅ : gmap string Struct).
  induction s as [|m s IH]; intros rows; simpl; [done |].
  by rewrite Hfg, IH.
Qed.

(** C1.  [Upsert] on a non-empty slice, with keys that are columns of the
    table, makes one insert.  The key of a record is the rendering of its
    Go fields named by the keys, joined by "_".  Among the rows inserted
    no two have the same key; a row is inserted exactly when it is the
    last element of the slice with its key, so a later element takes
    precedence over every earlier one with the same key; every key of
    the slice is that of an inserted row; and when the keys of the slice
    are pairwise distinct the inserted rows are the elements of the
    slice.  This holds in whatever order [range] visits the map. *)
Theorem Upsert_deduplicates (E : Env) (r : DAO) (ctx : Context)
  (recs : Iface) (first : Struct) (rest : list Struct)
  (keys columns goNames : list string) (w : World) :
  (∀ rows, range_keys E rows ≡ₚ (map_to_list rows).*1) →
  recs = RSliceOfPtr (first :: rest) ∨ recs = RSliceOfStruct (first :: rest) →
  keys ≠ [] →
  key_names E first keys = Some goNames →
  let s := first :: rest in
  let key := rendered_key E goNames in
  let o := Upsert E r ctx recs keys columns w in
  ∃ q tgt models,
    events (world_of o) = (events w ++ [EvCall tgt (ReqOrm q DoInsert)])%list
    ∧ returned o
      = Some (rep_err (driver E (events w) tgt (ReqOrm q DoInsert)))
    ∧ q_model q = [RPtrToSlice models]
    ∧ NoDup (key <$> models)
    ∧ (∀ m, m ∈ models ↔ last_with_key key s m)
    ∧ (∀ m, m ∈ s → ∃ m', m' ∈ models ∧ key m' = key m)
    ∧ (NoDup (key <$> s) → models ≡ₚ s).
Proof.
  intros Hrange Hrecs Hkeys Hnames s key o.
  set (models := range_rows E (fill_rows key s)).
  assert (Hperm : models ≡ₚ (map_to_list (fill_rows key s)).*2).
  { apply range_values, Hrange. }
  destruct (unique_models key s models Hperm) as (Hnd & Hin & Hcov & Hall).
  assert (Hlen : length models ≠ 0).
  { destruct (Hcov first) as (m' & Hm' & _); [by left |].
    destruct models; [by apply elem_of_nil in Hm' | done]. }
  assert (Hsel : upsert_models E recs goNames w = Ret (inl models) w).
  { assert (Hcode : range_rows E (fill_rows (upsert_key E goNames) s)
                    = models).
    { subst models key. unfold range_rows.
      by rewrite (fill_rows_ext (upsert_key E goNames)
                    (rendered_key E goNames) s (upsert_key_rendered E goNames)). }
    destruct Hrecs as [-> | ->];
      exact (f_equal (fun l => Ret (inl l) w) Hcode). }
  assert (Ho : o = (c ← WithContext (db r) ctx;
     q ← Model c [RPtrToSlice models];
     let q :=
       OnConflict q ("(" ++ String.concat "," keys ++ ") DO UPDATE")%string in
     let q := fold_left
       (fun q column => Set_ q (column ++ " = EXCLUDED." ++ column)%string [])
       columns q in
     rep ← run_query E q DoInsert;
     mret (rep_err rep)) w).
  { subst o. unfold Upsert.
    rewrite decide_False by (by destruct keys).
    rewrite (bind_Ret (getType recs) _ w (Some (TStruct (s_type first))) w)
      by (by destruct Hrecs as [-> | ->]).
    rewrite (bind_Ret (orm_GetTable E _) _ w (GetTable E (s_type first)) w)
      by reflexivity.
    rewrite (bind_Ret _ _ w goNames w).
    2:{ unfold key_names in Hnames.
        destruct (GetTable E (s_type first)) as [t|];
          [by apply go_names_run | by injection Hnames as <-]. }
    rewrite (bind_Ret (upsert_models E recs goNames) _ w (inl models) w Hsel).
    rewrite decide_False by done. reflexivity. }
  destruct (Upsert_insert_run E r ctx keys columns models w)
    as (q & tgt & Hev & Hret & Hmodel).
  exists q, tgt, models. rewrite Ho. done.
Qed.

Lemma Upsert_deduplicates_witness :
  let s := [Example.agent 111 "test11"; Example.agent 222 "test2";
            Example.agent 111 "test12"] in
  let key := rendered_key Example.env ["ID"] in
  let o := Upsert Example.env (New 0) context_Background (RSliceOfStruct s)
             ["id"] ["name"] Example.world0 in
  key <$> s = ["111"; "222"; "111"]
  ∧ ∃ q tgt models,
      events (world_of o)
      = (events Example.world0 ++ [EvCall tgt (ReqOrm q DoInsert)])%list
      ∧ returned o
        = Some (rep_err (driver Example.env (events Example.world0) tgt
                           (ReqOrm q DoInsert)))
      ∧ q_model q = [RPtrToSlice models]
      ∧ NoDup (key <$> models)
      ∧ Example.agent 111 "test12" ∈ models
      ∧ Example.agent 222 "test2" ∈ models
      ∧ Example.agent 111 "test11" ∉ models.
Proof.
  intros s key o. split; [reflexivity |].
  destruct (Upsert_deduplicates Example.env (New 0) context_Background
              (RSliceOfStruct s) (Example.agent 111 "test11")
              [Example.agent 222 "test2"; Example.agent 111 "test12"]
              ["id"] ["name"] ["ID"] Example.world0)
    as (q & tgt & models & Hev & Hret & Hmodel & Hnd & Hin & _).
  - intros rows. reflexivity.
  - right. reflexivity.
  - discriminate.
  - reflexivity.
  - exists q, tgt, models.
    split; [exact Hev |]. split; [exact Hret |]. split; [exact Hmodel |].
    split; [exact Hnd |]. split; [|split].
    + apply Hin. exists 2. split; [reflexivity |].
      intros j m' Hj Hm'. destruct j as [|[|[|j]]]; [lia | lia | lia |].
      discriminate Hm'.
    + apply Hin. exists 1. split; [reflexivity |].
      intros j m' Hj Hm'. destruct j as [|[|[|j]]]; [lia | lia | |].
      * injection Hm' as <-. discriminate.
      * discriminate Hm'.
    + intros Hm. apply Hin in Hm as (i & Hi & Hlast).
      destruct i as [|[|[|i]]]; try discriminate Hi.
      by apply (Hlast 2 (Example.agent 111 "test12")); [lia | |].
Defined.

(** The slice of the repository's test with doubles: one row, the later
    element. *)
Example Upsert_slice_with_doubles :
  let o := Upsert Example.env (New 0) context_Background
             (RSliceOfStruct
                [Example.agent 111 "test11"; Example.agent 111 "test12"])
             ["id"] ["name"] Example.world0 in
  match events (world_of o) with
  | [EvCall OnConn (ReqOrm q DoInsert)] =>
      q_model q = [RPtrToSlice [Example.agent 111 "test12"]]
  | _ => False
  end.
Proof. vm_compute. reflexivity. Qed.

(** ** The migration source *)

Import migrate.

Lemma substring_all (s : string) : String.substring 0 (String.length s) s = s.
Proof. induction s as [|c s IH]; simpl; [done | by rewrite IH]. Qed.

Lemma TrimPrefix_one (c : ascii) (s : string) :
  TrimPrefix s (String c EmptyString) = strip_leading c s.
Proof.
  unfold TrimPrefix, strip_leading. destruct s as [|c' rest]; simpl; [done |].
  destruct (ascii_dec c c') as [->|Hne].
  - rewrite Ascii.eqb_refl. destruct rest; simpl.
    + done.
    + by rewrite substring_all.
  - destruct (Ascii.eqb_spec c' c); [congruence | done].
Qed.

Lemma Run_builds_engine (engine : list MigCall -> MigCall -> MigReply)
  (m : Migrator) (tr : list MigCall) :
  cleanScheme m = [] →
  m_err (engine tr (SqlOpen driverName (dsn m))) = None →
  m_err (engine (tr ++ [SqlOpen driverName (dsn m)])%list WithInstance)
  = None →
  ∃ rest,
    (Run engine m tr).2
    = (tr ++ SqlOpen driverName (dsn m) :: WithInstance ::
         NewWithDatabaseInstance (path m) driverName :: rest)%list.
Proof.
  intros Hclean Hopen Hinst.
  unfold Run, run_opened, ask, warn_if_dirty. rewrite Hclean.
  unfold mbind, T_bind, mret, T_ret. simpl.
  rewrite Hopen. simpl. rewrite Hinst.
  repeat case_match; simplify_eq; simpl;
    rewrite <- ?app_assoc; simpl; eexists; reflexivity.
Qed.

(** C7.  [NewMigrator] sets the source to "file://" followed by the path
    with one leading "." and then one leading "/" removed, and keeps the
    DSN.  [Run] opens the database with that DSN and, once the database
    is opened and wrapped as a driver instance, builds the migration
    engine from that source. *)
Theorem NewMigrator_source (engine : list MigCall -> MigCall -> MigReply)
  (p d : string) (tr : list MigCall) :
  m_err (engine tr (SqlOpen driverName d)) = None →
  m_err (engine (tr ++ [SqlOpen driverName d])%list WithInstance) = None →
  let m := NewMigrator p d [] in
  let source :=
    ("file://" ++ strip_leading "/" (strip_leading "." p))%string in
  path m = source
  ∧ dsn m = d
  ∧ ∃ rest,
      (Run engine m tr).2
      = (tr ++ SqlOpen "postgres" d :: WithInstance ::
           NewWithDatabaseInstance source "postgres" :: rest)%list.
Proof.
  intros Hopen Hinst m source.
  assert (Hpath : path m = source).
  { subst m source. unfold NewMigrator. simpl.
    by rewrite !TrimPrefix_one. }
  split; [done |]. split; [done |].
  destruct (Run_builds_engine engine m tr eq_refl Hopen Hinst) as [rest Hrun].
  exists rest. rewrite Hrun, Hpath. reflexivity.
Qed.

Lemma NewMigrator_source_witness :
  let engine := fun (_ : list MigCall) (_ : MigCall) =>
    {| m_err := None; m_version := 1; m_dirty := false |} in
  path (NewMigrator "./test/migrations" "postgres://localhost/db" [])
  = "file://test/migrations"
  ∧ take 3 (Run engine
              (NewMigrator "./test/migrations" "postgres://localhost/db" [])
              []).2
    = [SqlOpen "postgres" "postgres://localhost/db"; WithInstance;
       NewWithDatabaseInstance "file://test/migrations" "postgres"].
Proof.
  intros engine.
  destruct (NewMigrator_source engine "./test/migrations"
              "postgres://localhost/db" [] eq_refl eq_refl)
    as (Hpath & _ & rest & Hrun).
  split; [exact Hpath |]. rewrite Hrun. reflexivity.
Defined.

Example NewMigrator_paths :
  path (NewMigrator "../x" "d" []) = "file://./x"
  ∧ path (NewMigrator "/abs" "d" []) = "file://abs"
  ∧ path (NewMigrator ".//x" "d" []) = "file:///x"
  ∧ path (NewMigrator "" "d" []) = "file://".
Proof. repeat split. Qed.

(** * Further properties of the code *)

(** ** The client wrapper *)

(** X1.  When [ExecOne] or [QueryOne] returns, exactly one of the result
    and the error is nil; a result that is returned has an affected-row
    count that is neither 0 nor greater than 1. *)
Theorem one_row_result_or_error (E : Env) (k : OneRowCall) (c : ClientRef)
  (query : Any) (params : list Any) (w : World) (res : option Result)
  (err : option error) :
  returned (one_row_call E k c query params w) = Some (res, err) →
  (res = None ∧ is_Some err)
  ∨ (err = None ∧ ∃ r, res = Some r ∧ RowsAffected r ≠ 0%Z
                       ∧ (RowsAffected r ≤ 1)%Z).
Proof.
  assert (Hone : ∀ p w0, returned (one_row p w0) = Some (res, err) →
            (res = None ∧ is_Some err)
            ∨ (err = None ∧ ∃ r, res = Some r ∧ RowsAffected r ≠ 0%Z
                                 ∧ (RowsAffected r ≤ 1)%Z)).
  { intros [[r|] [e|]] w0; simpl; try discriminate.
    - intros [= <- <-]. left. eauto.
    - rewrite assertOneRow_cases. repeat case_decide; simpl.
      + intros [= <- <-]. left. eauto.
      + intros [= <- <-]. left. eauto.
      + intros [= <- <-]. right. split; [done |]. exists r.
        repeat split; [done | lia].
    - intros [= <- <-]. left. eauto. }
  destruct k; simpl; unfold ExecOne, QueryOne, mbind, M_bind.
  - destruct (Exec E c query params w) as [p w0|w0]; [apply Hone | done].
  - destruct (Query_ E c model query params w) as [p w0|w0];
      [apply Hone | done].
Qed.

Lemma one_row_result_or_error_witness :
  returned (ExecOne Samples.env_no_rows 0 (VString "select 1") []
              Example.world0) = Some (None, Some ErrNoRows)
  ∧ ((None : option Result) = None ∧ is_Some (Some ErrNoRows)
     ∨ (Some ErrNoRows = None
        ∧ ∃ r, None = Some r ∧ RowsAffected r ≠ 0%Z
               ∧ (RowsAffected r ≤ 1)%Z)).
Proof.
  split; [reflexivity |].
  exact (one_row_result_or_error Samples.env_no_rows ViaExec 0
           (VString "select 1") [] Example.world0 None (Some ErrNoRows)
           eq_refl).
Defined.

Lemma end_clears (E : Env) (c : ClientRef) (w : World) :
  (∀ a w', Commit E c w = Ret a w' → w_tx (heap w' c) = None)
  ∧ (∀ a w', Rollback E c w = Ret a w' → w_tx (heap w' c) = None).
Proof.
  split; intros a w' H.
  - pose proof (Commit_run E c w) as [Hc _]. simpl in Hc. by rewrite H in Hc.
  - pose proof (Rollback_run E c w) as [Hc _]. simpl in Hc. by rewrite H in Hc.
Qed.

Lemma end_needs_tx (E : Env) (c : ClientRef) (w : World) :
  w_tx (heap w c) = None →
  returned (Commit E c w) = None ∧ returned (Rollback E c w) = None.
Proof.
  intros H. pose proof (Commit_run E c w) as [_ Hc].
  pose proof (Rollback_run E c w) as [_ Hr]. simpl in *.
  rewrite H in Hc, Hr. by destruct Hc, Hr.
Qed.

(** X2.  A transaction can be ended once: [Commit] or [Rollback] right
    after a [Commit] or [Rollback] never returns, in any world and
    whatever the driver answers. *)
Theorem second_end_panics (E : Env) (c : ClientRef) (w : World) :
  returned ((_ ← Commit E c; Commit E c) w) = None
  ∧ returned ((_ ← Commit E c; Rollback E c) w) = None
  ∧ returned ((_ ← Rollback E c; Commit E c) w) = None
  ∧ returned ((_ ← Rollback E c; Rollback E c) w) = None.
Proof.
  destruct (end_clears E c w) as [HC HR].
  unfold mbind, M_bind.
  destruct (Commit E c w) as [a w1|w1] eqn:H1;
    destruct (Rollback E c w) as [b w2|w2] eqn:H2;
    repeat split; try done;
    first [ apply (end_needs_tx E c w1), (HC a w1 eq_refl)
          | apply (end_needs_tx E c w2), (HR b w2 eq_refl) ].
Qed.

(** X3.  [StartTx] does not look at the stored transaction.  When the
    driver begins transaction [t], a following [Commit] commits [t] and
    returns the driver's answer; a transaction stored before is dropped
    without being committed or rolled back, and afterwards none is
    stored. *)
Theorem StartTx_then_Commit (E : Env) (c : ClientRef) (w : World) (t : TxId) :
  rep_err (driver E (events w) OnConn ReqBegin) = None →
  rep_tx (driver E (events w) OnConn ReqBegin) = Some t →
  let o := (_ ← StartTx E c; Commit E c) w in
  events (world_of o)
  = (events w ++ [EvCall OnConn ReqBegin; EvCall (OnTx t) ReqCommit])%list
  ∧ returned o
    = Some (rep_err (driver E (events w ++ [EvCall OnConn ReqBegin])%list
                       (OnTx t) ReqCommit))
  ∧ w_tx (heap (world_of o) c) = None.
Proof.
  intros Herr Htx. unfold StartTx, Commit, call, set_tx. run.
  rewrite Herr. simpl. rewrite !decide_True by done. simpl.
  rewrite Htx. simpl. rewrite decide_True by done. simpl.
  rewrite <- app_assoc. done.
Qed.

Lemma StartTx_then_Commit_witness :
  let o := (_ ← StartTx Example.env 0; Commit Example.env 0)
             Example.world_in_tx in
  omap tx_end (events (world_of o)) = [(0, true)]
  ∧ w_tx (heap (world_of o) 0) = None.
Proof.
  destruct (StartTx_then_Commit Example.env 0 Example.world_in_tx 0
              eq_refl eq_refl) as (Hev & _ & Htx).
  split; [by rewrite Hev | exact Htx].
Defined.

(** X4.  [getTxFromContext] reads the value attached last under [TxKey]:
    a later [newTxContext] shadows an earlier one; a value under another
    key, a transaction pointer or not, does not matter; and a value
    under [TxKey] that is not a transaction pointer reads as no
    transaction. *)
Theorem getTxFromContext_lookup (ctx : Context) (tx1 tx2 : option TxId)
  (k : CtxKey) (v v' : Any) :
  k ≠ TxKeyAddr →
  (∀ t, v' ≠ VTx t) →
  getTxFromContext (newTxContext (newTxContext ctx tx1) tx2) = tx2
  ∧ getTxFromContext (context_WithValue ctx k v) = getTxFromContext ctx
  ∧ getTxFromContext (context_WithValue (newTxContext ctx tx1) k v) = tx1
  ∧ getTxFromContext (context_WithValue ctx TxKeyAddr v') = None
  ∧ getTxFromContext
      (context_WithValue (context_WithValue ctx k v) TxKeyAddr v') = None.
Proof.
  intros Hk Hv. unfold getTxFromContext, newTxContext, context_WithValue,
    ctx_Value. simpl.
  rewrite !decide_False by done. simpl.
  repeat split; (destruct v'; try done; by destruct (Hv t)).
Qed.

Lemma getTxFromContext_lookup_witness :
  getTxFromContext
    (context_WithValue (newTxContext context_Background (Some 4))
       LoggerKeyAddr (VTx (Some 9))) = Some 4
  ∧ getTxFromContext
      (context_WithValue context_Background (OtherKey 0) (VTx (Some 9)))
    = None
  ∧ getTxFromContext
      (context_WithValue context_Background TxKeyAddr (VString "tx")) = None.
Proof.
  destruct (getTxFromContext_lookup context_Background (Some 4) None
              LoggerKeyAddr (VTx (Some 9)) (VString "tx"))
    as (_ & _ & H3 & H4 & _); [discriminate | discriminate |].
  destruct (getTxFromContext_lookup context_Background None None
              (OtherKey 0) (VTx (Some 9)) VNil) as (_ & H2 & _);
    [discriminate | discriminate |].
  split; [exact H3 |]. split; [exact H2 | exact H4].
Defined.

(** ** [Upsert] *)

Lemma fold_Set_excluded (columns : list string) (q : Query) :
  fold_left
    (fun q column => Set_ q (column ++ " = EXCLUDED." ++ column)%string [])
    columns q
  = add_sets q (excluded_sets columns).
Proof.
  revert q. induction columns as [|c columns IH]; intros q; simpl.
  - by rewrite add_sets_nil.
  - by rewrite IH, add_sets_Set.
Qed.

(** The query [Upsert] builds for the chosen models. *)
Lemma Upsert_insert_query (E : Env) (r : DAO) (ctx : Context)
  (keys columns : list string) (models : list Struct) (w : World) :
  let o :=
    (c ← WithContext (db r) ctx;
     q ← Model c [RPtrToSlice models];
     let q :=
       OnConflict q ("(" ++ String.concat "," keys ++ ") DO UPDATE")%string in
     let q := fold_left
       (fun q column => Set_ q (column ++ " = EXCLUDED." ++ column)%string [])
       columns q in
     rep ← run_query E q DoInsert;
     mret (rep_err rep)) w in
  let q :=
    add_sets
      (OnConflict (NewQuery (ViaWrapper (db r)) (Some ctx) [RPtrToSlice models])
         ("(" ++ String.concat "," keys ++ ") DO UPDATE")%string)
      (excluded_sets columns) in
  events (world_of o)
  = (events w ++ [EvCall (ctx_target ctx) (ReqOrm q DoInsert)])%list
  ∧ returned o
    = Some (rep_err (driver E (events w) (ctx_target ctx) (ReqOrm q DoInsert)))
  ∧ w_tx (heap (world_of o) (db r)) = getTxFromContext ctx.
Proof.
  intros o q. subst o.
  unfold WithContext, Model, run_query, call. run.
  rewrite fold_Set_excluded. unfold add_sets at 1 2 3 4 5. simpl.
  destruct (decide (db r = db r)); [|done]. simpl.
  unfold ctx_target. subst q.
  destruct (getTxFromContext ctx) as [t|]; simpl;
    (destruct (decide (db r = db r)); [|done]); done.
Qed.

Lemma Upsert_unfold (E : Env) (r : DAO) (ctx : Context) (recs : Iface)
  (keys columns goNames : list string) (models : list Struct) (w : World)
  (n : string) :
  keys ≠ [] →
  getType recs w = Ret (Some (TStruct n)) w →
  match GetTable E n with
  | Some t => go_names t keys
  | None => mret []
  end w = Ret goNames w →
  upsert_models E recs goNames w = Ret (inl models) w →
  models ≠ [] →
  Upsert E r ctx recs keys columns w
  = (c ← WithContext (db r) ctx;
     q ← Model c [RPtrToSlice models];
     let q :=
       OnConflict q ("(" ++ String.concat "," keys ++ ") DO UPDATE")%string in
     let q := fold_left
       (fun q column => Set_ q (column ++ " = EXCLUDED." ++ column)%string [])
       columns q in
     rep ← run_query E q DoInsert;
     mret (rep_err rep)) w.
Proof.
  intros Hkeys Htyp Hgo Hsel Hmodels. unfold Upsert.
  rewrite decide_False by (by destruct keys).
  rewrite (bind_Ret (getType recs) _ w _ w Htyp).
  rewrite (bind_Ret (orm_GetTable E _) _ w (GetTable E n) w) by reflexivity.
  rewrite (bind_Ret _ _ w goNames w Hgo).
  rewrite (bind_Ret _ _ w _ w Hsel).
  rewrite decide_False by (by destruct models). reflexivity.
Qed.

Lemma go_names_cases (t : Table) (keys : list string) (w : World) :
  go_names t keys w = Panic w ∨ ∃ names, go_names t keys w = Ret names w.
Proof.
  induction keys as [|key keys IH]; simpl.
  - right. by exists [].
  - destruct (FieldsMap t !! key) as [goName|]; [|by left].
    unfold mbind, M_bind. destruct IH as [-> | [names ->]]; [by left |].
    right. by eexists.
Qed.

Lemma app_one_ne {A} (l : list A) (x : A) : (l ++ [x])%list ≠ l.
Proof.
  intros H. apply (f_equal length) in H. rewrite length_app in H.
  simpl in H. lia.
Qed.

(** X5.  With keys given, [Upsert] on an empty slice panics without any
    call to the driver, and the only error [Upsert] returns without
    having called the driver is "recs must be slice or pointer to
    struct": the check for an empty list of models never fires. *)
Theorem Upsert_without_call (E : Env) (r : DAO) (ctx : Context)
  (recs : Iface) (keys columns : list string) (w : World) :
  (∀ rows, range_keys E rows ≡ₚ (map_to_list rows).*1) →
  keys ≠ [] →
  let o := Upsert E r ctx recs keys columns w in
  (recs = RSliceOfPtr [] ∨ recs = RSliceOfStruct [] →
   returned o = None ∧ events (world_of o) = events w)
  ∧ (∀ err, returned o = Some err → events (world_of o) = events w →
     err = Some (pkgerr.NewBadRequestError
                   (ErrText "recs must be slice or pointer to struct"))).
Proof.
  intros Hrange Hkeys o. split.
  - subst o. unfold Upsert. rewrite decide_False by (by destruct keys).
    by intros [-> | ->].
  - intros err Hret Hev.
    assert (Hcall : ∀ models n goNames,
              getType recs w = Ret (Some (TStruct n)) w →
              match GetTable E n with
              | Some t => go_names t keys
              | None => mret []
              end w = Ret goNames w →
              upsert_models E recs goNames w = Ret (inl models) w →
              models ≠ [] → False).
    { intros models n goNames Htyp Hgo Hsel Hne.
      pose proof (Upsert_unfold E r ctx recs keys columns goNames models w n
                    Hkeys Htyp Hgo Hsel Hne) as Hu.
      destruct (Upsert_insert_query E r ctx keys columns models w)
        as (Hq & _).
      unfold o in Hev. rewrite Hu in Hev. rewrite Hev in Hq.
      symmetry in Hq. by apply app_one_ne in Hq. }
    assert (Hgo : ∀ n,
              match GetTable E n with
              | Some t => go_names t keys
              | None => mret []
              end w = Panic w
              ∨ ∃ goNames, match GetTable E n with
                           | Some t => go_names t keys
                           | None => mret []
                           end w = Ret goNames w).
    { intros n. destruct (GetTable E n) as [t|];
        [apply go_names_cases | right; by exists []]. }
    assert (Hpanic : ∀ n, getType recs w = Ret (Some (TStruct n)) w →
              match GetTable E n with
              | Some t => go_names t keys
              | None => mret []
              end w = Panic w → False).
    { intros n Htyp Hp. subst o. revert Hret. unfold Upsert.
      rewrite decide_False by (by destruct keys).
      rewrite (bind_Ret (getType recs) _ w _ w Htyp).
      rewrite (bind_Ret (orm_GetTable E _) _ w (GetTable E n) w)
        by reflexivity.
      unfold mbind at 1. unfold M_bind at 1. by rewrite Hp. }
    destruct recs as [m | m | l | l | l | v].
    + destruct (Hgo (s_type m)) as [Hp | [goNames Hg]].
      * by destruct (Hpanic (s_type m)).
      * by destruct (Hcall [m] (s_type m) goNames).
    + destruct (Hgo (s_type m)) as [Hp | [goNames Hg]].
      * by destruct (Hpanic (s_type m)).
      * subst o. revert Hret. unfold Upsert.
        rewrite decide_False by (by destruct keys).
        rewrite (bind_Ret (getType (RStruct m)) _ w
                   (Some (TStruct (s_type m))) w) by reflexivity.
        rewrite (bind_Ret (orm_GetTable E _) _ w (GetTable E (s_type m)) w)
          by reflexivity.
        rewrite (bind_Ret _ _ w goNames w Hg).
        simpl. intros H. by injection H as <-.
    + destruct l as [|first rest];
        [subst o; revert Hret; unfold Upsert;
         rewrite decide_False by (by destruct keys); done |].
      destruct (Hgo (s_type first)) as [Hp | [goNames Hg]].
      * by destruct (Hpanic (s_type first)).
      * destruct (unique_models (upsert_key E goNames) (first :: rest)
                    (range_rows E
                       (fill_rows (upsert_key E goNames) (first :: rest))))
          as (_ & _ & Hcov & _); [apply range_values, Hrange |].
        exfalso.
        apply (Hcall _ (s_type first) goNames eq_refl Hg eq_refl).
        destruct (Hcov first) as (m' & Hm' & _); [by left |].
        intros Hnil. rewrite Hnil in Hm'. by apply elem_of_nil in Hm'.
    + destruct l as [|first rest];
        [subst o; revert Hret; unfold Upsert;
         rewrite decide_False by (by destruct keys); done |].
      destruct (Hgo (s_type first)) as [Hp | [goNames Hg]].
      * by destruct (Hpanic (s_type first)).
      * destruct (unique_models (upsert_key E goNames) (first :: rest)
                    (range_rows E
                       (fill_rows (upsert_key E goNames) (first :: rest))))
          as (_ & _ & Hcov & _); [apply range_values, Hrange |].
        exfalso.
        apply (Hcall _ (s_type first) goNames eq_refl Hg eq_refl).
        destruct (Hcov first) as (m' & Hm' & _); [by left |].
        intros Hnil. rewrite Hnil in Hm'. by apply elem_of_nil in Hm'.
    + subst o. revert Hret. unfold Upsert.
      rewrite decide_False by (by destruct keys). done.
    + subst o. revert Hret. unfold Upsert.
      rewrite decide_False by (by destruct keys). done.
Qed.

Lemma Upsert_without_call_witness :
  returned (Upsert Example.env (New 0) context_Background (RSliceOfStruct [])
              ["id"] ["name"] Example.world0) = None
  ∧ ∃ err,
      returned (Upsert Example.env (New 0) context_Background
                  (RStruct (Example.agent 1 "a")) ["id"] ["name"]
                  Example.world0) = Some err
      ∧ err = Some (pkgerr.NewBadRequestError
                      (ErrText "recs must be slice or pointer to struct")).
Proof.
  assert (Hrange : ∀ rows : gmap string Struct,
            range_keys Example.env rows ≡ₚ (map_to_list rows).*1)
    by (intros rows; reflexivity).
  assert (Hkeys : ["id"] ≠ ([] : list string)) by discriminate.
  split.
  - destruct (Upsert_without_call Example.env (New 0) context_Background
                (RSliceOfStruct []) ["id"] ["name"] Example.world0
                Hrange Hkeys) as [Hempty _].
    exact (proj1 (Hempty (or_intror eq_refl))).
  - destruct (Upsert_without_call Example.env (New 0) context_Background
                (RStruct (Example.agent 1 "a")) ["id"] ["name"]
                Example.world0 Hrange Hkeys) as [_ Honly].
    eexists. split; [reflexivity |]. exact (Honly _ eq_refl eq_refl).
Defined.

(** X6.  [Upsert] of a single record (a pointer to a struct) whose keys
    are columns of its table makes one insert of that record with the
    conflict clause "(k1,...,kn) DO UPDATE" and one clause
    "c = EXCLUDED.c" per column, in order, on the target of the context;
    it returns the driver's error as it is and leaves the client bound to
    the context. *)
Theorem Upsert_single (E : Env) (r : DAO) (ctx : Context) (m : Struct)
  (keys columns : list string) (w : World) :
  keys ≠ [] →
  is_Some (key_names E m keys) →
  let o := Upsert E r ctx (RPtr m) keys columns w in
  let q :=
    {| q_db := ViaWrapper (db r); q_ctx := Some ctx;
       q_model := [RPtrToSlice [m]]; q_apply := []; q_columns := [];
       q_wherePK := false; q_set := excluded_sets columns;
       q_onConflict :=
         Some ("(" ++ String.concat "," keys ++ ") DO UPDATE")%string;
       q_returning := None |} in
  events (world_of o)
  = (events w ++ [EvCall (ctx_target ctx) (ReqOrm q DoInsert)])%list
  ∧ returned o
    = Some (rep_err (driver E (events w) (ctx_target ctx) (ReqOrm q DoInsert)))
  ∧ w_tx (heap (world_of o) (db r)) = getTxFromContext ctx.
Proof.
  intros Hkeys [goNames Hnames] o q.
  assert (Hgo : match GetTable E (s_type m) with
                | Some t => go_names t keys
                | None => mret []
                end w = Ret goNames w).
  { unfold key_names in Hnames.
    destruct (GetTable E (s_type m)) as [t|];
      [by apply go_names_run | by injection Hnames as <-]. }
  subst o.
  rewrite (Upsert_unfold E r ctx (RPtr m) keys columns goNames [m] w
             (s_type m) Hkeys eq_refl Hgo eq_refl) by done.
  exact (Upsert_insert_query E r ctx keys columns [m] w).
Qed.

Lemma Upsert_single_witness :
  let o := Upsert Example.env (New 0) context_Background
             (RPtr (Example.agent 111 "test11")) ["id"] ["name"]
             Example.world0 in
  match events (world_of o) with
  | [EvCall OnConn (ReqOrm q DoInsert)] =>
      q_onConflict q = Some "(id) DO UPDATE"
      ∧ q_set q = [("name = EXCLUDED.name", [])]
      ∧ q_model q = [RPtrToSlice [Example.agent 111 "test11"]]
  | _ => False
  end.
Proof.
  intros o.
  destruct (Upsert_single Example.env (New 0) context_Background
              (Example.agent 111 "test11") ["id"] ["name"] Example.world0)
    as (Hev & _); [discriminate | by eexists |].
  fold o in Hev. rewrite Hev. repeat split.
Defined.

(** ** [WithTX] *)

Lemma bind_Panic {A B} (m : M A) (k : A → M B) (w w' : World) :
  m w = Panic w' → (m ≫= k) w = Panic w'.
Proof. intros H. unfold mbind, M_bind. by rewrite H. Qed.

Lemma bind_same_run {A B} (m1 m2 : M A) (k : A → M B) (w : World) :
  m1 w = m2 w → (m1 ≫= k) w = (m2 ≫= k) w.
Proof. intros H. unfold mbind, M_bind. by rewrite H. Qed.

Lemma WithTX_active (E : Env) (r : DAO) (ctx : Context)
  (fn : Context -> M (option error)) (w : World) :
  is_Some (w_tx (heap w (db r))) → WithTX E r ctx fn w = fn ctx w.
Proof. intros [t Ht]. unfold WithTX, Tx. run. by rewrite Ht. Qed.

(** X7.  When [WithTX] has to begin a transaction and [Begin] fails, the
    passed function is not run: [WithTX] returns the converted error of
    [Begin], the only call made is that [Begin], and the client is left
    bound to the context. *)
Theorem WithTX_begin_fails (E : Env) (r : DAO) (ctx : Context)
  (fn : Context -> M (option error)) (w : World) (err : error) :
  w_tx (heap w (db r)) = None →
  rep_err (driver E (events w) OnConn ReqBegin) = Some err →
  let o := WithTX E r ctx fn w in
  returned o = Some (Some (pkgerr.Convert E ctx err))
  ∧ events (world_of o) = (events w ++ [EvCall OnConn ReqBegin])%list
  ∧ w_tx (heap (world_of o) (db r)) = getTxFromContext ctx.
Proof.
  intros Hnone Hfail. unfold WithTX, Tx, WithContext, StartTx, call. run.
  rewrite Hnone. simpl. rewrite Hfail. simpl.
  rewrite decide_True by done. done.
Qed.

Lemma WithTX_begin_fails_witness :
  let o := WithTX Samples.env_begin_fails (New 0) context_Background
             Example.fn_inner_context Example.world0 in
  returned o = Some (Some (AppErr Internal (DriverErr 8)))
  ∧ events (world_of o) = [EvCall OnConn ReqBegin].
Proof.
  destruct (WithTX_begin_fails Samples.env_begin_fails (New 0)
              context_Background Example.fn_inner_context Example.world0
              (DriverErr 8) eq_refl eq_refl) as (Hret & Hev & _).
  split; [exact Hret | exact Hev].
Defined.

(** X8.  A [WithTX] nested in the function of another [WithTX] joins the
    outer transaction: provided a successful [Begin] yields a
    transaction, running [WithTX] inside [WithTX] is the same run as
    [WithTX] alone, with one [Begin] and one [Commit] or [Rollback]. *)
Theorem WithTX_nested (E : Env) (r : DAO) (ctx : Context)
  (fn : Context -> M (option error)) (w : World) :
  (rep_err (driver E (events w) OnConn ReqBegin) = None →
   is_Some (rep_tx (driver E (events w) OnConn ReqBegin))) →
  WithTX E r ctx (fun c => WithTX E r c fn) w = WithTX E r ctx fn w.
Proof.
  intros Hbegin.
  destruct (w_tx (heap w (db r))) as [t|] eqn:Ht.
  - rewrite (WithTX_active E r ctx (fun c => WithTX E r c fn) w)
      by (rewrite Ht; eauto).
    reflexivity.
  - unfold WithTX at 1 3.
    rewrite !(bind_Ret (Tx (db r)) _ w None w)
      by (unfold Tx; run; by rewrite Ht).
    rewrite !(bind_Ret (WithContext (db r) ctx) _ w (db r)
                (world_of (WithContext (db r) ctx w))) by reflexivity.
    set (w0 := world_of (WithContext (db r) ctx w)).
    assert (Hev0 : events w0 = events w) by reflexivity.
    pose proof (StartTx_run E (db r) w0) as [_ Hst]. simpl in Hst.
    destruct (StartTx E (db r) w0) as [[tx e] w1|w1] eqn:HS.
    + rewrite !(bind_Ret _ _ w0 _ w1 HS). simpl in Hst.
      destruct (rep_err (driver E (events w) OnConn ReqBegin)) as [e0|] eqn:He.
      * destruct Hst as [[= -> ->] _]. reflexivity.
      * destruct Hst as [[= -> ->] Hstored].
        destruct (Hbegin eq_refl) as [t Htx].
        apply bind_same_run. apply WithTX_active.
        rewrite Hstored, Htx. eauto.
    + by rewrite !(bind_Panic _ _ w0 w1 HS).
Qed.

Lemma WithTX_nested_witness :
  WithTX Example.env (New 0) context_Background
    (fun c => WithTX Example.env (New 0) c Example.fn_inner_context)
    Example.world0
  = WithTX Example.env (New 0) context_Background Example.fn_inner_context
      Example.world0.
Proof.
  apply (WithTX_nested Example.env (New 0) context_Background
           Example.fn_inner_context Example.world0).
  intros _. by eexists.
Defined.

(** ** The DAO operations and the shared client *)

Ltac bound_run r ctx :=
  dao_run; unfold bound_call, ctx_target; simpl;
  destruct (getTxFromContext ctx); simpl;
  destruct (decide (db r = db r)); try done; simpl;
  repeat split; eauto.

(** X9.  Every query of the DAO binds the shared client to the context
    it is given and runs on the transaction that context carries, or on
    the pooled connection when it carries none, whatever transaction the
    client held before; afterwards the client's active transaction is
    the one of that context. *)
Theorem dao_binds_client (E : Env) (r : DAO) (ctx : Context) (rec : Iface)
  (recs : list Iface) (opts : list nat) (columns : list string) (w : World) :
  bound_call (db r) ctx w (FindOne E r ctx rec opts w)
  ∧ bound_call (db r) ctx w (FindList E r ctx rec opts w)
  ∧ bound_call (db r) ctx w (FindListWithTotal E r ctx rec opts w)
  ∧ bound_call (db r) ctx w (GetTotal E r ctx rec opts w)
  ∧ bound_call (db r) ctx w (dao.Insert E r ctx recs w)
  ∧ bound_call (db r) ctx w (UpdateWithReturning E r ctx rec columns w)
  ∧ bound_call (db r) ctx w (HardDelete E r ctx rec w)
  ∧ bound_call (db r) ctx w (HardDeleteWhere E r ctx rec opts w).
Proof.
  split; [|split; [|split; [|split; [|split; [|split; [|split]]]]]].
  - bound_run r ctx.
  - bound_run r ctx.
  - dao_run; unfold bound_call, ctx_target; simpl;
      destruct (getTxFromContext ctx); simpl;
      destruct (rep_err _); simpl;
      destruct (decide (db r = db r)); try done; simpl;
      repeat split; eauto.
  - dao_run; unfold bound_call, ctx_target; simpl;
      destruct (getTxFromContext ctx); simpl;
      destruct (rep_err _); simpl;
      destruct (decide (db r = db r)); try done; simpl;
      repeat split; eauto.
  - bound_run r ctx.
  - bound_run r ctx.
  - bound_run r ctx.
  - bound_run r ctx.
Qed.

Lemma Update_run (E : Env) (r : DAO) (ctx : Context) (rec : Iface)
  (columns : list string) (w : World) :
  let o := dao.Update E r ctx rec columns w in
  let q pk :=
    {| q_db := ViaWrapper (db r); q_ctx := Some ctx; q_model := [rec];
       q_apply := []; q_columns := (columns ++ [updatedField r])%list;
       q_wherePK := pk; q_set := []; q_onConflict := None;
       q_returning := None |} in
  let ran pk :=
    events (world_of o)
    = (events w ++ [EvCall (ctx_target ctx) (ReqOrm (q pk) DoUpdate)])%list
    ∧ returned o
      = Some (converted E ctx
                (rep_err (driver E (events w) (ctx_target ctx)
                            (ReqOrm (q pk) DoUpdate)))) in
  let panics :=
    returned o = None ∧ events (world_of o) = events w
    ∧ w_tx (heap (world_of o) (db r)) = getTxFromContext ctx in
  match rec with
  | RPtr _ | ROther (VTx (Some _)) => ran true
  | RPtrToSlice _ => ran false
  | ROther ((VAppender _ | VOpaque _) as v) =>
      match elem_not_slice E v with
      | Some notSlice => ran notSlice
      | None => panics
      end
  | RStruct _ | RSliceOfPtr _ | RSliceOfStruct _
  | ROther (VNil | VString _ | VInt _ | VTime _ | VTx None) => panics
  end.
Proof.
  intros o q ran panics. subst o q ran panics. unfold ctx_target.
  destruct rec as [| | | | | v]; [.. | destruct v as [| | | | [tx |] | |]];
    dao_run;
    try (destruct (elem_not_slice E _) as [[] |]; simpl);
    destruct (decide (db r = db r)); try done; simpl;
    destruct (getTxFromContext ctx); simpl; done.
Qed.

(** X10.  [Update] always adds the configured updated field as the last
    column.  For a non-nil pointer to a struct, a [*pg.Tx] among them,
    it updates by primary key; for a pointer to a slice without that
    filter.  For a struct, a slice, the nil interface, a string, an
    integer, a time or a nil [*pg.Tx] it panics before any call to the
    driver, with the client already bound to the context.  For any other
    value it does the one or the other as reflection finds a pointer to
    something that is not a slice, a pointer to a slice, or neither. *)
Theorem Update_columns (E : Env) (r : DAO) (ctx : Context) (rec : Iface)
  (columns : list string) (w : World) :
  let o := dao.Update E r ctx rec columns w in
  let q pk :=
    {| q_db := ViaWrapper (db r); q_ctx := Some ctx; q_model := [rec];
       q_apply := []; q_columns := (columns ++ [updatedField r])%list;
       q_wherePK := pk; q_set := []; q_onConflict := None;
       q_returning := None |} in
  let ran pk :=
    events (world_of o)
    = (events w ++ [EvCall (ctx_target ctx) (ReqOrm (q pk) DoUpdate)])%list
    ∧ returned o
      = Some (converted E ctx
                (rep_err (driver E (events w) (ctx_target ctx)
                            (ReqOrm (q pk) DoUpdate)))) in
  let panics :=
    returned o = None ∧ events (world_of o) = events w
    ∧ w_tx (heap (world_of o) (db r)) = getTxFromContext ctx in
  match rec with
  | RPtr _ | ROther (VTx (Some _)) => ran true
  | RPtrToSlice _ => ran false
  | ROther ((VAppender _ | VOpaque _) as v) =>
      match elem_not_slice E v with
      | Some notSlice => ran notSlice
      | None => panics
      end
  | RStruct _ | RSliceOfPtr _ | RSliceOfStruct _
  | ROther (VNil | VString _ | VInt _ | VTime _ | VTx None) => panics
  end.
Proof. apply Update_run. Qed.

(** A non-nil transaction pointer passed as the record: the update is
    made, by primary key. *)
Example Update_of_transaction_pointer :
  let o := dao.Update Example.env (New 0) context_Background
             (ROther (VTx (Some 5))) ["name"] Example.world0 in
  returned o = Some None
  ∧ match events (world_of o) with
    | [EvCall OnConn (ReqOrm q DoUpdate)] =>
        q_wherePK q = true ∧ q_columns q = ["name"; "updated"]
    | _ => False
    end.
Proof. repeat split. Qed.

(** X11.  [SoftDelete] never deletes: it stamps the record with the
    current time and makes one update by primary key of exactly the
    configured deleted and updated columns.  A failure of that update is
    returned converted twice. *)
Theorem SoftDelete_updates (E : Env) (r : DAO) (ctx : Context) (rec : Struct)
  (w : World) :
  let o := SoftDelete E r ctx rec w in
  let q :=
    {| q_db := ViaWrapper (db r); q_ctx := Some ctx;
       q_model := [RPtr (SetDeleted E rec (clock w))];
       q_apply := []; q_columns := [deletedField r; updatedField r];
       q_wherePK := true; q_set := []; q_onConflict := None;
       q_returning := None |} in
  events (world_of o)
  = (events w ++ [EvCall (ctx_target ctx) (ReqOrm q DoUpdate)])%list
  ∧ returned o
    = Some (converted E ctx (converted E ctx
              (rep_err (driver E (events w) (ctx_target ctx)
                          (ReqOrm q DoUpdate))))).
Proof.
  intros o q. subst o. unfold SoftDelete.
  rewrite (bind_Ret time_Now _ w (clock w) w) by reflexivity.
  pose proof (Update_run E r ctx (RPtr (SetDeleted E rec (clock w)))
                [deletedField r] w) as [Hev Hret].
  simpl in Hev, Hret. unfold mbind, M_bind.
  destruct (dao.Update E r ctx _ _ w) as [a w1|w1]; [|done].
  simpl in *. injection Hret as ->. done.
Qed.

(** ** [GetUniqueModels] *)

Lemma range_rows_empty (E : Env) :
  (∀ rows, range_keys E rows ≡ₚ (map_to_list rows).*1) →
  range_rows E ∅ = [].
Proof.
  intros Hrange. unfold range_rows.
  assert (Hnil : range_keys E (∅ : gmap string Struct) = []).
  { apply Permutation_nil_r. rewrite (Hrange ∅).
    by rewrite map_to_list_empty. }
  by rewrite Hnil.
Qed.

(** X12.  For any key function, [GetUniqueModels] on a slice, of structs
    or of pointers alike, returns the elements that are the last of the
    slice with their key: their keys are pairwise distinct, they are
    elements of the slice and at most as many as the slice has.  On the
    nil interface it panics; on any other value that is not a slice it
    returns nothing. *)
Theorem GetUniqueModels_contract (E : Env) (f : Struct -> string)
  (s : list Struct) (other : Iface) (w : World) :
  (∀ rows, range_keys E rows ≡ₚ (map_to_list rows).*1) →
  (∀ l, other ≠ RSliceOfPtr l ∧ other ≠ RSliceOfStruct l) →
  ∃ unique,
    GetUniqueModels E (RSliceOfStruct s) f w = Ret unique w
    ∧ GetUniqueModels E (RSliceOfPtr s) f w = Ret unique w
    ∧ NoDup (f <$> unique)
    ∧ (∀ m, m ∈ unique ↔ last_with_key f s m)
    ∧ (∀ m, m ∈ unique → m ∈ s)
    ∧ (length unique ≤ length s)%nat
    ∧ GetUniqueModels E other f w
      = match other with
        | ROther VNil => Panic w
        | _ => Ret [] w
        end.
Proof.
  intros Hrange Hother.
  set (unique := range_rows E (fill_rows f s)).
  destruct (unique_models f s unique) as (Hnd & Hin & _ & _).
  { apply range_values, Hrange. }
  assert (Hsub : ∀ m, m ∈ unique → m ∈ s).
  { intros m Hm. apply Hin in Hm as (i & Hi & _).
    apply list_elem_of_lookup. eauto. }
  exists unique.
  split; [done |]. split; [done |]. split; [done |]. split; [done |].
  split; [done |]. split.
  - apply submseteq_length, NoDup_submseteq; [|done].
    by eapply NoDup_fmap_1.
  - unfold GetUniqueModels.
    destruct other as [m | m | l | l | l | v].
    + by rewrite range_rows_empty.
    + by rewrite range_rows_empty.
    + by destruct (Hother l) as [? _].
    + by destruct (Hother l) as [_ ?].
    + by rewrite range_rows_empty.
    + destruct v; [done | by rewrite range_rows_empty ..].
Qed.

Lemma GetUniqueModels_contract_witness :
  let s := [Example.agent 1 "a"; Example.agent 2 "b"; Example.agent 1 "c"] in
  let f := upsert_key Example.env ["ID"] in
  GetUniqueModels Example.env (RSliceOfStruct s) f Example.world0
  = Ret [Example.agent 1 "c"; Example.agent 2 "b"] Example.world0
  ∧ (∃ unique,
       GetUniqueModels Example.env (RSliceOfPtr s) f Example.world0
       = Ret unique Example.world0
       ∧ (length unique ≤ 3)%nat
       ∧ (Example.agent 1 "c" ∈ unique
          ↔ last_with_key f s (Example.agent 1 "c")))
  ∧ GetUniqueModels Example.env (RPtr (Example.agent 1 "a")) f Example.world0
    = Ret [] Example.world0
  ∧ GetUniqueModels Example.env (ROther VNil) f Example.world0
    = Panic Example.world0.
Proof.
  intros s f.
  assert (Hrange : ∀ rows : gmap string Struct,
            range_keys Example.env rows ≡ₚ (map_to_list rows).*1)
    by (intros rows; reflexivity).
  destruct (GetUniqueModels_contract Example.env f s
              (RPtr (Example.agent 1 "a")) Example.world0 Hrange)
    as (unique & _ & Hptr & _ & Hlast & _ & Hlen & Hother).
  { intros l. split; discriminate. }
  split; [vm_compute; reflexivity |]. split.
  - exists unique. split; [exact Hptr |]. split; [exact Hlen | apply Hlast].
  - split; [exact Hother | reflexivity].
Defined.

(** ** The migrator *)

Lemma fold_options (options : list OptionFn) (m : Migrator) :
  Forall is_migrate_option options →
  let m' := fold_left (fun m opt => opt m) options m in
  path m' = path m ∧ dsn m' = dsn m.
Proof.
  revert m. induction options as [|o options IH]; intros m Hall; [done |].
  apply Forall_cons in Hall as [Ho Hall]. simpl.
  destruct (IH (o m) Hall) as [-> ->].
  by destruct Ho as [[scheme ->] | [l ->]].
Qed.

(** X13.  The options of package migrate never touch the source or the
    DSN: with any list of [WithClean] and [WithLogger] options
    [NewMigrator] sets the same source and DSN as without, and an option
    given last decides the schemes to clean or the logger. *)
Theorem NewMigrator_options (p d : string) (options : list OptionFn)
  (scheme : list string) (l : nat) :
  Forall is_migrate_option options →
  path (NewMigrator p d options) = path (NewMigrator p d [])
  ∧ dsn (NewMigrator p d options) = d
  ∧ cleanScheme (NewMigrator p d (options ++ [WithClean scheme])) = scheme
  ∧ logger (NewMigrator p d (options ++ [WithLogger l])) = l
  ∧ cleanScheme (NewMigrator p d []) = []
  ∧ logger (NewMigrator p d []) = nop_logger.
Proof.
  intros Hall. unfold NewMigrator.
  pose proof (fold_options options
    {| path := "file://" ++ TrimPrefix (TrimPrefix p ".") "/"; dsn := d;
       cleanScheme := []; logger := nop_logger |} Hall) as [Hp Hd].
  simpl in Hp, Hd. rewrite !fold_left_app. simpl. done.
Qed.

Lemma NewMigrator_options_witness :
  path (NewMigrator "./m" "dsn" [WithClean ["public"]; WithLogger 5])
  = "file://m"
  ∧ cleanScheme (NewMigrator "./m" "dsn"
                   [WithClean ["public"]; WithLogger 5; WithClean ["a"; "b"]])
    = ["a"; "b"].
Proof.
  assert (Hall : Forall is_migrate_option [WithClean ["public"]; WithLogger 5]).
  { apply Forall_cons. split; [left; by eexists |].
    apply Forall_cons. split; [right; by eexists | constructor]. }
  destruct (NewMigrator_options "./m" "dsn"
              [WithClean ["public"]; WithLogger 5] ["a"; "b"] 0 Hall)
    as (Hp & _ & Hc & _).
  split; [exact Hp | exact Hc].
Defined.

Lemma clean_all_extends (engine : list MigCall -> MigCall -> MigReply)
  (m : Migrator) (schemes : list string) (tr : list MigCall) :
  ∃ added, (clean_all engine m schemes tr).2 = (tr ++ added)%list
           ∧ Forall only_cleaning added.
Proof.
  revert tr. induction schemes as [|schema schemes IH]; intros tr.
  - exists []. simpl. by rewrite app_nil_r.
  - simpl. unfold cleanDatabase, ask. unfold mbind, T_bind, mret, T_ret.
    simpl. repeat case_match; simplify_eq; simpl;
      rewrite <- ?app_assoc; simpl.
    1-2: eexists; split; [reflexivity | by repeat constructor].
    match goal with
    | |- context [clean_all engine m schemes ?t] =>
        destruct (IH t) as (added & Hadd & Hall)
    end.
    rewrite Hadd, <- !app_assoc. simpl.
    eexists. split; [reflexivity |]. by repeat constructor.
Qed.

Lemma only_cleaning_not_close (l : list MigCall) :
  Forall only_cleaning l → Forall (fun c => c ≠ DbClose) l.
Proof. intros H. eapply Forall_impl; [exact H |]. by intros []. Qed.

Lemma run_opened_extends (engine : list MigCall -> MigCall -> MigReply)
  (m : Migrator) (tr : list MigCall) :
  ∃ mid, (run_opened engine m tr).2 = (tr ++ mid)%list
         ∧ Forall (fun c => c ≠ DbClose) mid.
Proof.
  unfold run_opened. unfold mbind at 1. unfold T_bind at 1.
  destruct (clean_all_extends engine m (cleanScheme m) tr)
    as (added & Hadd & Hall).
  apply only_cleaning_not_close in Hall.
  destruct (clean_all engine m (cleanScheme m) tr) as [cleaned tr1].
  simpl in Hadd. subst tr1.
  destruct cleaned as [err|]; [by exists added |].
  unfold ask, warn_if_dirty, mbind, T_bind, mret, T_ret. simpl.
  repeat case_match; simplify_eq; simpl; rewrite <- ?app_assoc; simpl;
    (eexists (added ++ _)%list; split;
     [reflexivity
     | apply Forall_app; split; [exact Hall | by repeat constructor]]).
Qed.

(** X14.  [Run] closes the database exactly when it has opened it.  When
    [sql.Open] fails, [Run] logs the failure and returns the error
    without any further call; otherwise, however the run ends, its last
    call is the one [db.Close()] and no call before it closes the
    database. *)
Theorem Run_closes_database (engine : list MigCall -> MigCall -> MigReply)
  (m : Migrator) (tr : list MigCall) :
  match m_err (engine tr (SqlOpen driverName (dsn m))) with
  | Some err =>
      Run engine m tr
      = (Some err,
         (tr ++ [SqlOpen driverName (dsn m);
                 Log (logger m) LError "failed to connect database"])%list)
  | None =>
      ∃ mid,
        (Run engine m tr).2
        = (tr ++ SqlOpen driverName (dsn m) :: mid ++ [DbClose])%list
        ∧ Forall (fun c => c ≠ DbClose) mid
  end.
Proof.
  destruct (m_err (engine tr (SqlOpen driverName (dsn m)))) as [err|]
    eqn:Hopen.
  - unfold Run, ask, mbind, T_bind, mret, T_ret. simpl. rewrite Hopen.
    by rewrite <- app_assoc.
  - destruct (run_opened_extends engine m
                (tr ++ [SqlOpen driverName (dsn m)])%list)
      as (mid & Hmid & Hall).
    exists mid. split; [|done].
    unfold Run, ask. unfold mbind at 1. unfold T_bind at 1. rewrite Hopen.
    unfold mbind at 1. unfold T_bind at 1.
    destruct (run_opened engine m _) as [res tr1]. simpl in Hmid. subst tr1.
    unfold mbind, T_bind, mret, T_ret. simpl.
    rewrite <- !app_assoc. reflexivity.
Qed.

Lemma clean_all_ok (engine : list MigCall -> MigCall -> MigReply)
  (m : Migrator) (schemes : list string) (tr : list MigCall) :
  (∀ tr q, m_err (engine tr (DbQuery q)) = None) →
  clean_all engine m schemes tr = (None, (tr ++ clean_calls m schemes)%list).
Proof.
  intros Hok. revert tr. induction schemes as [|schema schemes IH]; intros tr.
  - simpl. by rewrite app_nil_r.
  - simpl. unfold cleanDatabase, ask. unfold mbind, T_bind, mret, T_ret.
    simpl. rewrite !Hok. rewrite IH. by rewrite <- !app_assoc.
Qed.

(** X15.  With schemes to clean and queries that succeed, [Run] drops
    and recreates every scheme in the order given, each "DROP SCHEMA s
    CASCADE" followed by "CREATE SCHEMA s", after opening the database
    and before it wraps the database as a migration driver and builds
    the engine. *)
Theorem Run_cleans_first (engine : list MigCall -> MigCall -> MigReply)
  (m : Migrator) (tr : list MigCall) :
  m_err (engine tr (SqlOpen driverName (dsn m))) = None →
  (∀ tr q, m_err (engine tr (DbQuery q)) = None) →
  ∃ rest,
    (Run engine m tr).2
    = (tr ++ SqlOpen driverName (dsn m) ::
         clean_calls m (cleanScheme m) ++ WithInstance :: rest)%list.
Proof.
  intros Hopen Hok.
  unfold Run, run_opened, ask, warn_if_dirty, mbind, T_bind, mret, T_ret.
  simpl. rewrite Hopen. rewrite clean_all_ok by done.
  repeat case_match; simplify_eq; simpl; rewrite <- ?app_assoc; simpl;
    eexists; reflexivity.
Qed.

Lemma Run_cleans_first_witness :
  take 8 (Run Samples.engine_ok
            (NewMigrator "m" "dsn" [WithClean ["public"; "audit"]]) []).2
  = [SqlOpen "postgres" "dsn";
     Log 0 LInfo "clean schema";
     DbQuery "DROP SCHEMA public CASCADE"; DbQuery "CREATE SCHEMA public";
     Log 0 LInfo "clean schema";
     DbQuery "DROP SCHEMA audit CASCADE"; DbQuery "CREATE SCHEMA audit";
     WithInstance].
Proof.
  destruct (Run_cleans_first Samples.engine_ok
              (NewMigrator "m" "dsn" [WithClean ["public"; "audit"]]) []
              eq_refl (fun _ _ => eq_refl)) as [rest Hrun].
  rewrite Hrun. reflexivity.
Defined.

(** X16.  When cleaning fails, [Run] returns that error, closes the
    database and stops: it has made no call but opening the database,
    log lines, queries and the close, so the migration driver and the
    engine are never reached. *)
Theorem Run_stops_on_clean_error
  (engine : list MigCall -> MigCall -> MigReply) (m : Migrator)
  (tr tr1 : list MigCall) (err : MigErr) :
  m_err (engine tr (SqlOpen driverName (dsn m))) = None →
  clean_all engine m (cleanScheme m) (tr ++ [SqlOpen driverName (dsn m)])%list
  = (Some err, tr1) →
  Run engine m tr = (Some err, (tr1 ++ [DbClose])%list)
  ∧ ∃ added,
      tr1 = (tr ++ SqlOpen driverName (dsn m) :: added)%list
      ∧ Forall only_cleaning added.
Proof.
  intros Hopen Hclean. split.
  - unfold Run, run_opened, ask, warn_if_dirty, mbind, T_bind, mret, T_ret.
    simpl. rewrite Hopen. rewrite Hclean. reflexivity.
  - destruct (clean_all_extends engine m (cleanScheme m)
                (tr ++ [SqlOpen driverName (dsn m)])%list)
      as (added & Hadd & Hall).
    rewrite Hclean in Hadd. simpl in Hadd. exists added.
    by rewrite Hadd, <- app_assoc.
Qed.

Lemma Run_stops_on_clean_error_witness :
  Run Samples.engine_query_fails
    (NewMigrator "m" "dsn" [WithClean ["public"; "audit"]]) []
  = (Some (MigOther 2),
     [SqlOpen "postgres" "dsn"; Log 0 LInfo "clean schema";
      DbQuery "DROP SCHEMA public CASCADE"; DbClose]).
Proof.
  exact (proj1 (Run_stops_on_clean_error Samples.engine_query_fails
                  (NewMigrator "m" "dsn" [WithClean ["public"; "audit"]]) []
                  _ (MigOther 2) eq_refl eq_refl)).
Defined.

Ltac split_dirty :=
  match goal with
  | |- context [if m_dirty ?x then _ else _] => destruct (m_dirty x)
  end.

(** X17.  No change is success: when every call succeeds except that
    [Up] reports [ErrNoChange], [Run] returns nil, logs that there are
    no new database changes and still reads the version afterwards. *)
Theorem Run_no_change (engine : list MigCall -> MigCall -> MigReply)
  (m : Migrator) (tr : list MigCall) :
  (∀ tr c, c ≠ Up → m_err (engine tr c) = None) →
  (∀ tr, m_err (engine tr Up) = Some ErrNoChange) →
  (Run engine m tr).1 = None
  ∧ ∃ before after,
      (Run engine m tr).2
      = (before ++ Up :: Log (logger m) LInfo "no new database changes"
           :: Version :: Log (logger m) LInfo "migration done"
           :: after ++ [DbClose])%list.
Proof.
  intros Hok Hup.
  unfold Run, run_opened, ask, warn_if_dirty, mbind, T_bind, mret, T_ret.
  simpl. rewrite (Hok _ (SqlOpen _ _)) by done.
  rewrite clean_all_ok by (intros; by apply Hok).
  rewrite (Hok _ WithInstance) by done.
  rewrite (Hok _ (NewWithDatabaseInstance _ _)) by done.
  split_dirty; simpl;
    rewrite ?(Hok _ Version) by done; simpl;
    rewrite ?Hup; simpl;
    rewrite ?(Hok _ Version) by done; simpl;
    split_dirty; simpl;
    (split; [reflexivity |]);
    match goal with
    | |- context [(?X ++ [Up])%list] => exists X; generalize X; intros X'
    end;
    [ exists [Log (logger m) LWarn "previous migration failed"]
    | exists []
    | exists [Log (logger m) LWarn "previous migration failed"]
    | exists [] ];
    rewrite <- !app_assoc; reflexivity.
Qed.

Lemma Run_no_change_witness :
  (Run Samples.engine_no_change (NewMigrator "m" "dsn" []) []).1 = None.
Proof.
  apply (Run_no_change Samples.engine_no_change (NewMigrator "m" "dsn" []) []).
  - intros tr c Hc. by destruct c.
  - intros tr. reflexivity.
Defined.

(** X18.  On a database whose version reads as 0, [Run] ignores a
    failure to read the version, before and after migrating: when every
    other call succeeds it returns nil and has run [Up]. *)
Theorem Run_fresh_database (engine : list MigCall -> MigCall -> MigReply)
  (m : Migrator) (tr : list MigCall) :
  (∀ tr c, c ≠ Version → m_err (engine tr c) = None) →
  (∀ tr, m_version (engine tr Version) = 0%Z) →
  (Run engine m tr).1 = None ∧ Up ∈ (Run engine m tr).2.
Proof.
  intros Hok Hzero.
  unfold Run, run_opened, ask, warn_if_dirty, mbind, T_bind, mret, T_ret.
  simpl. rewrite (Hok _ (SqlOpen _ _)) by done.
  rewrite clean_all_ok by (intros; by apply Hok).
  rewrite (Hok _ WithInstance) by done.
  rewrite (Hok _ (NewWithDatabaseInstance _ _)) by done.
  rewrite !Hzero. rewrite andb_false_r.
  split_dirty; simpl; rewrite ?(Hok _ Up) by done; simpl;
    rewrite ?andb_false_r; split_dirty; simpl;
    (split; [reflexivity |]);
    rewrite !elem_of_app, !list_elem_of_singleton; tauto.
Qed.

Lemma Run_fresh_database_witness :
  (Run Samples.engine_fresh (NewMigrator "m" "dsn" []) []).1 = None
  ∧ (Run Samples.engine_fresh (NewMigrator "m" "dsn" []) []).2
    = [SqlOpen "postgres" "dsn"; WithInstance;
       NewWithDatabaseInstance "file://m" "postgres"; Version;
       Log 0 LInfo "migration started"; Up; Version;
       Log 0 LInfo "migration done"; DbClose].
Proof.
  split; [|reflexivity].
  apply (Run_fresh_database Samples.engine_fresh (NewMigrator "m" "dsn" []) []).
  - intros tr c Hc. by destruct c.
  - intros tr. reflexivity.
Defined.

(** ** The query logger *)

Import dblog.

Lemma measure_stamped (d : dbLogger) (now1 now2 : Z) (event : QueryEvent) :
  measure now2 (BeforeQuery d now1 event) = Some (time_Sub now2 now1).
Proof.
  unfold measure, BeforeQuery, stash_set. simpl.
  by destruct (decide (queryStartTime = queryStartTime)).
Qed.

(** X19.  A query stamped by [BeforeQuery] is measured from that stamp,
    whatever the stash held before.  With a threshold of 0 every query
    that can be formatted is logged at info level; with another
    threshold it is logged exactly when the measured time is not below
    the threshold, and then at warn level. *)
Theorem logger_threshold (Error_ : error -> string) (d : dbLogger)
  (now1 now2 : Z) (event : QueryEvent) (query : string) :
  ev_FormattedQuery event = (query, None) →
  let elapsed := time_Sub now2 now1 in
  let line level :=
    (lg_logger d, level, log_text Error_ query elapsed (ev_Err event)) in
  AfterQuery Error_ d now2 (BeforeQuery d now1 event)
  = Some (if decide (lg_duration d = 0)%Z then [line InfoLevel]
          else if decide (elapsed < lg_duration d)%Z then []
          else [line WarnLevel])
  ∧ ((minDuration ≤ now2 - now1 ≤ maxDuration)%Z →
     elapsed = (now2 - now1)%Z).
Proof.
  intros Hfmt elapsed line. split.
  - unfold AfterQuery.
    change (ev_FormattedQuery (BeforeQuery d now1 event))
      with (ev_FormattedQuery event).
    change (ev_Err (BeforeQuery d now1 event)) with (ev_Err event).
    rewrite Hfmt, measure_stamped.
    fold elapsed. subst line.
    repeat case_decide; try reflexivity; lia.
  - intros [Hlo Hhi]. subst elapsed. unfold time_Sub.
    destruct (Z.ltb_spec (now2 - now1) minDuration); [lia |].
    destruct (Z.ltb_spec maxDuration (now2 - now1)); [lia | done].
Qed.

Lemma logger_threshold_witness :
  AfterQuery Samples.error_text (newDBLogger 1 0) 2500000
    (BeforeQuery (newDBLogger 1 0) 0 Samples.event_plain)
  = Some [(1, InfoLevel, "query: select 1 [2 ms]")]
  ∧ AfterQuery Samples.error_text (newDBLogger 1 5000000) 2500000
      (BeforeQuery (newDBLogger 1 5000000) 0 Samples.event_plain)
    = Some []
  ∧ AfterQuery Samples.error_text (newDBLogger 1 2000000) 2500000
      (BeforeQuery (newDBLogger 1 2000000) 0 Samples.event_plain)
    = Some [(1, WarnLevel, "query: select 1 [2 ms]")].
Proof.
  split; [|split].
  - exact (proj1 (logger_threshold Samples.error_text (newDBLogger 1 0) 0
                    2500000 Samples.event_plain "select 1" eq_refl)).
  - exact (proj1 (logger_threshold Samples.error_text (newDBLogger 1 5000000)
                    0 2500000 Samples.event_plain "select 1" eq_refl)).
  - exact (proj1 (logger_threshold Samples.error_text (newDBLogger 1 2000000)
                    0 2500000 Samples.event_plain "select 1" eq_refl)).
Defined.

(** X20.  A query that was never stamped counts as taking no time: with
    a positive threshold it is never logged, and with a threshold of 0
    it is logged at info level without a time. *)
Theorem logger_unstamped (Error_ : error -> string) (d : dbLogger) (now : Z)
  (event : QueryEvent) (query : string) :
  ev_FormattedQuery event = (query, None) →
  (ev_Stash event = None
   ∨ ∃ stash, ev_Stash event = Some stash ∧ stash queryStartTime = None) →
  (0 ≤ lg_duration d)%Z →
  AfterQuery Error_ d now event
  = Some (if decide (lg_duration d = 0)%Z
          then [(lg_logger d, InfoLevel,
                 match ev_Err event with
                 | Some e => ("query: " ++ query ++ String "010"%char "error: "
                                ++ Error_ e)%string
                 | None => ("query: " ++ query)%string
                 end)]
          else []).
Proof.
  intros Hfmt Hstash Hpos.
  assert (Hm : measure now event = Some 0%Z).
  { unfold measure. destruct Hstash as [-> | (stash & -> & ->)]; done. }
  unfold AfterQuery. rewrite Hfmt, Hm. unfold log_text.
  repeat case_decide; try reflexivity; try lia.
Qed.

Lemma logger_unstamped_witness :
  AfterQuery Samples.error_text (newDBLogger 1 1000000) 99000000000
    Samples.event_plain = Some []
  ∧ AfterQuery Samples.error_text (newDBLogger 1 0) 99000000000
      Samples.event_plain = Some [(1, InfoLevel, "query: select 1")].
Proof.
  split.
  - apply (logger_unstamped Samples.error_text (newDBLogger 1 1000000)
             99000000000 Samples.event_plain "select 1");
      [reflexivity | by left | by vm_compute].
  - apply (logger_unstamped Samples.error_text (newDBLogger 1 0)
             99000000000 Samples.event_plain "select 1");
      [reflexivity | by left | by vm_compute].
Defined.
